(** * disk-watchdogd: a shallow embedding of [disk-watchdog.c]

    The daemon probes a file with uncached block reads and tells the
    supervisor (systemd) that the disk still answers.  Everything the
    program asks of the outside world (system calls, the supervisor, the
    signal that stops it) is answered by an explicit oracle, and
    everything it does to the outside world is appended to a trace of
    events, so that each run of the C code corresponds to one evaluation
    of the functions below. *)

From Stdlib Require Import ZArith List String Ascii Bool Lia.
From Equations Require Import Equations.
Import ListNotations.

Local Open Scope string_scope.
Local Open Scope list_scope.
Local Open Scope Z_scope.

(** ** Constants and machine integers *)

(** [#define BUFFER_SIZE 512] *)
Definition BUFFER_SIZE : Z := 512.

(** [#define DEFAULT_INTERVAL 10000] (10ms in microseconds) *)
Definition DEFAULT_INTERVAL : Z := 10000.

Definition INT_MIN : Z := - 2 ^ 31.
Definition INT_MAX : Z := 2 ^ 31 - 1.
Definition UINT64_MAX : Z := 2 ^ 64 - 1.

(** The value an [int] object holds after a value [z] is stored into it:
    the representative of [z] modulo 2^32 in the two's-complement range.
    C leaves the out-of-range cases to the implementation (conversions)
    or undefined (signed arithmetic); this is what gcc produces on the
    Linux targets the daemon is built for. *)
Definition to_int (z : Z) : Z := (z + 2 ^ 31) mod 2 ^ 32 - 2 ^ 31.

(** Conversion of an [int] to [useconds_t] (32-bit unsigned), as happens
    at the call [usleep(interval_us)]. *)
Definition to_useconds (z : Z) : Z := z mod 2 ^ 32.

Definition in_int (z : Z) : Prop := INT_MIN <= z <= INT_MAX.

(** ** Events *)

Inductive seek_whence := SEEK_SET | SEEK_END.

(** Lines written to the error stream.  The text of [strerror(errno)] is
    left out; the numbers printed with the line are kept. *)
Inductive diag :=
| DiagMemalignFailed
| DiagOpenFailed
| DiagLseekFailed
| DiagReadFailed (offset : Z)
| DiagUnexpectedEOF (offset : Z)
| DiagPartialRead (offset ret : Z)
| DiagCloseFailed
| DiagStrdupFailed
| DiagInvalidInterval (optarg : string)
| DiagFileRequired
| DiagNotExist (path : string)
| DiagNotRegular (path : string)
| DiagEmpty (path : string)
| DiagReadTestFailed (code : Z).

(** Lines written to standard output: the usage text and what
    [LOG_VERBOSE] prints. *)
Inductive log :=
| LogUsage (prog_name : string)
| LogWatchdogEnabled (watchdog_usec : Z)
| LogOverriding (ms : Z)
| LogWatchdogSafe (ms : Z)
| LogIntegrationEnabled
| LogConfiguration
| LogTestFile (path : string)
| LogInterval (ms : Z)
| LogDebugOn
| LogStarted
| LogMonitoring (path : string)
| LogIteration (n : Z)
| LogReadOk
| LogShuttingDown.

Inductive event :=
| EvMemalign (ret : Z)
| EvMemset
| EvOpen (path : string) (ret : Z)
| EvLseek (fd : Z) (whence : seek_whence) (ret : Z)
| EvRead (fd : Z) (ret : Z)
| EvClose (fd : Z) (ret : Z)
| EvFree
| EvStderr (d : diag)
| EvStdout (l : log)
| EvNotify (state : string)
| EvUsleep (usec : Z)
| EvInstallHandlers
| EvFreeTestFile.

Definition trace := list event.

(** ** The disk read prober: [test_read] *)

(** What the system answers during one call of [test_read]: the return
    values of [posix_memalign], [open], the two [lseek]s, each [read] in
    turn, and [close]. *)
Record probe_world := {
  memalign_ret : Z;
  open_ret : Z;
  lseek_end_ret : Z;
  lseek_set_ret : Z;
  read_ret : nat -> Z;
  close_ret : Z
}.

Definition inspect {A} (a : A) : {b : A | a = b} := exist _ a eq_refl.

(** The loop [while (bytes_read < aligned_size)] of [test_read].  [k]
    counts the [read] calls made so far.  The result is [Some code] when
    the loop body returns from [test_read], [None] when the loop ends,
    together with the final value of [bytes_read] and the events. *)
Equations? read_loop (w : probe_world) (fd aligned_size bytes_read : Z) (k : nat)
  : option Z * Z * trace
  by wf (Z.to_nat (aligned_size - bytes_read)) lt :=
read_loop w fd aligned_size bytes_read k
  with inspect (bytes_read <? aligned_size) := {
  | exist _ false _ := (None, bytes_read, []);
  | exist _ true Hlt
      with inspect (read_ret w k <? 0) := {
      | exist _ true _ :=
          (Some 4, bytes_read,
           [EvRead fd (read_ret w k); EvStderr (DiagReadFailed bytes_read);
            EvClose fd (close_ret w); EvFree]);
      | exist _ false _
          with inspect (read_ret w k =? 0) := {
          | exist _ true _ :=
              (Some 5, bytes_read,
               [EvRead fd (read_ret w k); EvStderr (DiagUnexpectedEOF bytes_read);
                EvClose fd (close_ret w); EvFree]);
          | exist _ false _
              with inspect (negb (read_ret w k =? BUFFER_SIZE)) := {
              | exist _ true _ :=
                  (Some 6, bytes_read,
                   [EvRead fd (read_ret w k);
                    EvStderr (DiagPartialRead bytes_read (read_ret w k));
                    EvClose fd (close_ret w); EvFree]);
              | exist _ false Hfull :=
                  let '(r, b, t) :=
                    read_loop w fd aligned_size (bytes_read + read_ret w k) (S k) in
                  (r, b, EvRead fd (read_ret w k) :: t) } } } }.
Proof.
  apply negb_false_iff, Z.eqb_eq in Hfull.
  apply Z.ltb_lt in Hlt.
  rewrite Hfull. unfold BUFFER_SIZE. lia.
Qed.

(** [(file_size / BUFFER_SIZE) * BUFFER_SIZE], with the division of C,
    which rounds towards zero. *)
Definition aligned_size (file_size : Z) : Z :=
  Z.quot file_size BUFFER_SIZE * BUFFER_SIZE.

(** [int test_read(const char *filename)] *)
Definition test_read (filename : string) (w : probe_world) : Z * trace :=
  if negb (memalign_ret w =? 0) then
    (1, [EvMemalign (memalign_ret w); EvStderr DiagMemalignFailed])
  else
    let t0 := [EvMemalign (memalign_ret w); EvMemset] in
    let fd := open_ret w in
    if fd <? 0 then
      (2, t0 ++ [EvOpen filename fd; EvStderr DiagOpenFailed; EvFree])
    else
      let t1 := t0 ++ [EvOpen filename fd] in
      let file_size := lseek_end_ret w in
      if file_size <? 0 then
        (3, t1 ++ [EvLseek fd SEEK_END file_size; EvStderr DiagLseekFailed;
                   EvClose fd (close_ret w); EvFree])
      else
        let t2 := t1 ++ [EvLseek fd SEEK_END file_size;
                         EvLseek fd SEEK_SET (lseek_set_ret w)] in
        let '(r, _, tl) := read_loop w fd (aligned_size file_size) 0 0 in
        match r with
        | Some code => (code, t2 ++ tl)
        | None =>
            if close_ret w <? 0 then
              (7, t2 ++ tl ++ [EvClose fd (close_ret w); EvStderr DiagCloseFailed; EvFree])
            else
              (0, t2 ++ tl ++ [EvClose fd (close_ret w); EvFree])
        end.

(** ** Library functions used by the argument parser

    [atoi] and [getopt_long] belong to the C library, not to the
    daemon; they are modelled after their behaviour in glibc, for the
    option table of [parse_args]. *)

(** [isspace] in the C locale. *)
Definition isspace (c : ascii) : bool :=
  match c with
  | " "%char | "009"%char | "010"%char | "011"%char | "012"%char | "013"%char => true
  | _ => false
  end.

Definition digit_value (c : ascii) : option Z :=
  let n := Z.of_nat (nat_of_ascii c) in
  if (48 <=? n) && (n <=? 57) then Some (n - 48) else None.

Fixpoint skip_spaces (s : string) : string :=
  match s with
  | String c rest => if isspace c then skip_spaces rest else s
  | EmptyString => s
  end.

(** The value of the longest run of decimal digits at the head of [s],
    continuing from [acc]. *)
Fixpoint digits (acc : Z) (s : string) : Z :=
  match s with
  | String c rest =>
      match digit_value c with
      | Some d => digits (acc * 10 + d) rest
      | None => acc
      end
  | EmptyString => acc
  end.

Definition LONG_MIN : Z := - 2 ^ 63.
Definition LONG_MAX : Z := 2 ^ 63 - 1.

(** [strtol(nptr, NULL, 10)]: white space, an optional sign, then the
    digits; anything after them is ignored, no digits at all give 0, and
    a value outside [long] is clamped. *)
Definition strtol (nptr : string) : Z :=
  let s := skip_spaces nptr in
  let '(neg, s) :=
    match s with
    | String "-"%char rest => (true, rest)
    | String "+"%char rest => (false, rest)
    | _ => (false, s)
    end in
  let v := digits 0 s in
  Z.max LONG_MIN (Z.min LONG_MAX (if neg then - v else v)).

(** [atoi], which glibc defines as [(int) strtol(nptr, NULL, 10)]. *)
Definition atoi (nptr : string) : Z := to_int (strtol nptr).

(** One answer of [getopt_long]: the value it returns (the option
    character, or [?] for an option it rejects) and [optarg]. *)
Definition getopt_ret : Type := ascii * string.

(** The third argument of [getopt_long] in [parse_args]. *)
Definition optstring : string := "f:i:hvd".

(** [long_options] of [parse_args]: name, [required_argument] or
    [no_argument], and [val]. *)
Definition long_options : list (string * bool * ascii) :=
  [ ("file", true, "f"%char);
    ("interval", true, "i"%char);
    ("help", false, "h"%char);
    ("verbose", false, "v"%char);
    ("debug", false, "d"%char) ].

(** Whether [c] is an option character of [spec], and whether it takes
    an argument (it is followed by a colon). *)
Fixpoint short_lookup (spec : string) (c : ascii) : option bool :=
  match spec with
  | EmptyString => None
  | String o rest =>
      if (Ascii.eqb o c) && negb (Ascii.eqb c ":"%char) then
        Some (match rest with String ":"%char _ => true | _ => false end)
      else short_lookup rest c
  end.

(** A long option is recognised by its full name or by a prefix of its
    name that no other long option shares. *)
Definition long_lookup (name : string) : option (bool * ascii) :=
  match filter (fun o => String.eqb (fst (fst o)) name) long_options with
  | (_, has_arg, val) :: _ => Some (has_arg, val)
  | [] =>
      match filter (fun o => String.prefix name (fst (fst o))) long_options with
      | [(_, has_arg, val)] => Some (has_arg, val)
      | _ => None
      end
  end.

(** Cuts [s] at its first [=]: the name, and the value when there is one. *)
Fixpoint split_eq (s : string) : string * option string :=
  match s with
  | EmptyString => (EmptyString, None)
  | String c rest =>
      if Ascii.eqb c "="%char then (EmptyString, Some rest)
      else let '(n, v) := split_eq rest in (String c n, v)
  end.

Definition rejected : getopt_ret := ("?"%char, "").

(** The short options packed in one [argv] element (after its dash).
    The second component is the option character that still waits for
    its argument in the next [argv] element, if any. *)
Fixpoint scan_cluster (cs : string) : list getopt_ret * option ascii :=
  match cs with
  | EmptyString => ([], None)
  | String c rest =>
      match short_lookup optstring c with
      | None => let '(rs, p) := scan_cluster rest in (rejected :: rs, p)
      | Some false => let '(rs, p) := scan_cluster rest in ((c, "") :: rs, p)
      | Some true =>
          match rest with
          | EmptyString => ([], Some c)
          | _ => ([(c, rest)], None)
          end
      end
  end.

(** The successive answers of
    [getopt_long(argc, argv, "f:i:hvd", long_options, NULL)] over the
    elements of [argv] after the program name, until it answers -1.  GNU
    [getopt_long] skips the elements that are not options (it moves them
    behind the options) and stops at [--].  The message [getopt_long]
    itself prints for an option it rejects is not part of the trace. *)
Fixpoint getopt_long (args : list string) : list getopt_ret :=
  match args with
  | [] => []
  | a :: rest =>
      match a with
      | String "-"%char (String "-"%char EmptyString) => []
      | String "-"%char (String "-"%char body) =>
          let '(name, value) := split_eq body in
          match long_lookup name, value with
          | Some (true, val), Some v => (val, v) :: getopt_long rest
          | Some (true, val), None =>
              match rest with
              | v :: rest' => (val, v) :: getopt_long rest'
              | [] => [rejected]
              end
          | Some (false, val), None => (val, "") :: getopt_long rest
          | Some (false, _), Some _ => rejected :: getopt_long rest
          | None, _ => rejected :: getopt_long rest
          end
      | String "-"%char (String c cs) =>
          let '(rs, pending) := scan_cluster (String c cs) in
          match pending with
          | None => rs ++ getopt_long rest
          | Some o =>
              match rest with
              | v :: rest' => rs ++ (o, v) :: getopt_long rest'
              | [] => rs ++ [rejected]
              end
          end
      | _ => getopt_long rest
      end
  end.

(** ** Global variables *)

(** [test_file], [interval_us], [verbose_mode] and [debug_mode].  The
    flag [running] is part of the state of the monitor loop below. *)
Record globals := {
  test_file : option string;
  interval_us : Z;
  verbose_mode : bool;
  debug_mode : bool
}.

Definition initial_globals : globals :=
  {| test_file := None; interval_us := DEFAULT_INTERVAL;
     verbose_mode := false; debug_mode := false |}.

Definition set_test_file (g : globals) (p : string) : globals :=
  {| test_file := Some p; interval_us := interval_us g;
     verbose_mode := verbose_mode g; debug_mode := debug_mode g |}.

Definition set_interval_us (g : globals) (v : Z) : globals :=
  {| test_file := test_file g; interval_us := v;
     verbose_mode := verbose_mode g; debug_mode := debug_mode g |}.

Definition set_verbose (g : globals) : globals :=
  {| test_file := test_file g; interval_us := interval_us g;
     verbose_mode := true; debug_mode := debug_mode g |}.

Definition set_debug (g : globals) : globals :=
  {| test_file := test_file g; interval_us := interval_us g;
     verbose_mode := true; debug_mode := true |}.

(** [LOG_VERBOSE(...)] *)
Definition LOG_VERBOSE (g : globals) (l : log) : trace :=
  if verbose_mode g then [EvStdout l] else [].

(** [print_usage(prog_name)] *)
Definition print_usage (prog_name : string) : trace :=
  [EvStdout (LogUsage prog_name)].

(** ** The outside world of a whole run *)

Record stat_result := {
  stat_ret : Z;
  st_is_reg : bool;
  st_size : Z
}.

Record world := {
  (** whether the n-th call of [strdup] returns a non-null pointer *)
  strdup_ok : nat -> bool;
  (** the return value of [sd_watchdog_enabled(0, &watchdog_usec)] and
      the timeout it stores when it is positive *)
  sd_watchdog_enabled : Z;
  sd_watchdog_usec : Z;
  (** [stat(filepath, &st)] *)
  stat : string -> stat_result;
  (** what the system answers during the k-th call of [test_read] *)
  probe : nat -> probe_world;
  (** whether [signal_handler] has run between the previous test of
      [running] and the k-th one *)
  signalled : nat -> bool
}.

(** How a function that may call [exit] ends. *)
Inductive completion :=
| Returns (v : Z)
| Exits (status : Z).

(** ** The argument parser: [parse_args] *)

(** The [while ((opt = getopt_long(...)) != -1)] loop over the answers
    of [getopt_long]; [n] counts the calls of [strdup].  The first
    component is [None] when the loop runs to its end. *)
Fixpoint parse_options (prog_name : string) (w : world) (opts : list getopt_ret)
    (g : globals) (n : nat) : option completion * globals * trace :=
  match opts with
  | [] => (None, g, [])
  | (opt, optarg) :: rest =>
      if Ascii.eqb opt "f" then
        if strdup_ok w n then
          parse_options prog_name w rest (set_test_file g optarg) (S n)
        else
          (Some (Returns (-1)),
           {| test_file := None; interval_us := interval_us g;
              verbose_mode := verbose_mode g; debug_mode := debug_mode g |},
           [EvStderr DiagStrdupFailed])
      else if Ascii.eqb opt "i" then
        let g' := set_interval_us g (to_int (atoi optarg * 1000)) in
        if interval_us g' <=? 0 then
          (Some (Returns (-1)), g', [EvStderr (DiagInvalidInterval optarg)])
        else parse_options prog_name w rest g' n
      else if Ascii.eqb opt "v" then
        parse_options prog_name w rest (set_verbose g) n
      else if Ascii.eqb opt "d" then
        parse_options prog_name w rest (set_debug g) n
      else if Ascii.eqb opt "h" then
        (Some (Exits 0), g, print_usage prog_name)
      else
        (Some (Returns (-1)), g, print_usage prog_name)
  end.

(** The block [if (!debug_mode) { ... sd_watchdog_enabled ... }]. *)
Definition watchdog_adjust (w : world) (g : globals) : globals * trace :=
  if negb (debug_mode g) then
    let watchdog_usec := sd_watchdog_usec w in
    if sd_watchdog_enabled w >? 0 then
      let g' := set_interval_us g (to_int (watchdog_usec / 2)) in
      (g',
       LOG_VERBOSE g (LogWatchdogEnabled watchdog_usec)
       ++ (if negb (interval_us g =? DEFAULT_INTERVAL)
           then LOG_VERBOSE g (LogOverriding (Z.quot (interval_us g) 1000)) else [])
       ++ LOG_VERBOSE g' (LogWatchdogSafe (Z.quot (interval_us g') 1000))
       ++ LOG_VERBOSE g' LogIntegrationEnabled)
    else (g, [])
  else (g, []).

(** [static int parse_args(int argc, char *argv[])] *)
Definition parse_args (argv : list string) (w : world) (g : globals)
  : completion * globals * trace :=
  let prog_name := hd "" argv in
  let '(r, g1, t1) := parse_options prog_name w (getopt_long (tl argv)) g 0%nat in
  match r with
  | Some c => (c, g1, t1)
  | None =>
      match test_file g1 with
      | None => (Returns (-1), g1, t1 ++ [EvStderr DiagFileRequired] ++ print_usage prog_name)
      | Some path =>
          let '(g2, t2) := watchdog_adjust w g1 in
          (Returns 0, g2,
           t1 ++ t2
           ++ LOG_VERBOSE g2 LogConfiguration
           ++ LOG_VERBOSE g2 (LogTestFile path)
           ++ LOG_VERBOSE g2 (LogInterval (Z.quot (interval_us g2) 1000))
           ++ (if debug_mode g2 then LOG_VERBOSE g2 LogDebugOn else []))
      end
  end.

(** ** The precondition checker: [check_test_file] *)

Definition check_test_file (filepath : string) (w : world) : Z * trace :=
  let st := stat w filepath in
  if stat_ret st <? 0 then (-1, [EvStderr (DiagNotExist filepath)])
  else if negb (st_is_reg st) then (-1, [EvStderr (DiagNotRegular filepath)])
  else if st_size st =? 0 then (-1, [EvStderr (DiagEmpty filepath)])
  else (0, []).

(** ** The monitor loop and [main] *)

(** The variables of the loop: [running], the local [iteration], and the
    number of tests of [running] made so far (the index of the next
    probe). *)
Record loop_state := {
  running : bool;
  iteration : Z;
  round : nat
}.

(** [signal_handler]: all it does is [running = 0]. *)
Definition signal_handler (st : loop_state) : loop_state :=
  {| running := false; iteration := iteration st; round := round st |}.

(** Delivery of the signals that arrived since the previous test of
    [running]. *)
Definition deliver (w : world) (st : loop_state) : loop_state :=
  if signalled w (round st) then signal_handler st else st.

(** One execution of the body of [while (running)].  The increment of
    [iteration] is an argument of [LOG_VERBOSE], so it happens in
    verbose mode only.  The result carries the value of [read_result]. *)
Definition loop_body (path : string) (g : globals) (w : world) (st : loop_state)
  : Z * loop_state * trace :=
  let iteration' := if verbose_mode g then to_int (iteration st + 1) else iteration st in
  let '(read_result, tp) := test_read path (probe w (round st)) in
  (read_result,
   {| running := running st; iteration := iteration'; round := S (round st) |},
   LOG_VERBOSE g (LogIteration iteration')
   ++ tp
   ++ (if negb (read_result =? 0) then
         [EvStderr (DiagReadTestFailed read_result)]
       else
         LOG_VERBOSE g LogReadOk
         ++ (if negb (debug_mode g) then [EvNotify "WATCHDOG=1"] else []))
   ++ [EvUsleep (to_useconds (interval_us g))]).

(** The states of the monitor loop. *)
Inductive loop_phase :=
| Running (st : loop_state)
| Stopping.

(** [while (running) { ... }], followed for at most [fuel] tests of
    [running].  The result is [Stopping] when the loop has ended, and
    [Running st] when it is about to test [running] again. *)
Fixpoint monitor_loop (fuel : nat) (path : string) (g : globals) (w : world)
    (st : loop_state) : loop_phase * trace :=
  match fuel with
  | O => (Running st, [])
  | S fuel' =>
      let st1 := deliver w st in
      if running st1 then
        let '(_, st2, t) := loop_body path g w st1 in
        let '(ph, t') := monitor_loop fuel' path g w st2 in
        (ph, t ++ t')
      else (Stopping, [])
  end.

Definition initial_loop_state : loop_state :=
  {| running := true; iteration := 0; round := 0 |}.

(** [int main(int argc, char *argv[])], observed for at most [fuel]
    tests of [running]: the exit status when the process has ended
    within them, and what it did. *)
Definition main (fuel : nat) (argv : list string) (w : world) : option Z * trace :=
  let '(r, g, t) := parse_args argv w initial_globals in
  match r with
  | Exits status => (Some status, t)
  | Returns v =>
      if v <? 0 then (Some 1, t)
      else
        match test_file g with
        | None => (Some 1, t) (* [parse_args] returns 0 only with [test_file] set *)
        | Some path =>
            let t1 := t ++ [EvInstallHandlers] in
            let '(c, tc) := check_test_file path w in
            if c <? 0 then (Some 1, t1 ++ tc ++ [EvFreeTestFile])
            else
              let t2 :=
                t1 ++ tc
                ++ (if negb (debug_mode g) then [EvNotify "READY=1"] else [])
                ++ LOG_VERBOSE g LogStarted
                ++ LOG_VERBOSE g (LogMonitoring path) in
              let '(ph, tl) := monitor_loop fuel path g w initial_loop_state in
              match ph with
              | Running _ => (None, t2 ++ tl)
              | Stopping =>
                  (Some 0, t2 ++ tl ++ LOG_VERBOSE g LogShuttingDown ++ [EvFreeTestFile])
              end
        end
  end.

(** ** Some worlds *)

(** A probe on a healthy disk: every call succeeds and every [read]
    delivers a full block. *)
Definition healthy_probe (size : Z) : probe_world :=
  {| memalign_ret := 0; open_ret := 3; lseek_end_ret := size; lseek_set_ret := 0;
     read_ret := fun _ => BUFFER_SIZE; close_ret := 0 |}.

(** The same, with another answer to the [lseek] back to the start. *)
Definition set_lseek_set_ret (w : probe_world) (v : Z) : probe_world :=
  {| memalign_ret := memalign_ret w; open_ret := open_ret w;
     lseek_end_ret := lseek_end_ret w; lseek_set_ret := v;
     read_ret := read_ret w; close_ret := close_ret w |}.

(** The [lseek] back to the start fails on a file of two blocks and the
    position stays at the end of the file, where [read] delivers
    nothing. *)
Definition reseek_fails : probe_world :=
  {| memalign_ret := 0; open_ret := 3; lseek_end_ret := 1024; lseek_set_ret := -1;
     read_ret := fun _ => 0; close_ret := 0 |}.

(** The [lseek] back to the start fails on a file of 100 bytes. *)
Definition reseek_fails_small : probe_world :=
  set_lseek_set_ret (healthy_probe 100) (-1).

(** A healthy disk, no supervisor watchdog, and a signal that ends the
    loop at its third test of [running]. *)
Definition healthy_world : world :=
  {| strdup_ok := fun _ => true;
     sd_watchdog_enabled := 0;
     sd_watchdog_usec := 0;
     stat := fun _ => {| stat_ret := 0; st_is_reg := true; st_size := 4096 |};
     probe := fun _ => healthy_probe 4096;
     signalled := fun k => (2 <=? k)%nat |}.

(** The same under a supervisor whose watchdog timeout is [T]
    microseconds. *)
Definition supervised_world (T : Z) : world :=
  {| strdup_ok := strdup_ok healthy_world;
     sd_watchdog_enabled := 1;
     sd_watchdog_usec := T;
     stat := stat healthy_world;
     probe := probe healthy_world;
     signalled := signalled healthy_world |}.

(** The same where the target file is missing. *)
Definition missing_file_world : world :=
  {| strdup_ok := strdup_ok healthy_world;
     sd_watchdog_enabled := 0;
     sd_watchdog_usec := 0;
     stat := fun _ => {| stat_ret := -1; st_is_reg := false; st_size := 0 |};
     probe := probe healthy_world;
     signalled := signalled healthy_world |}.

(** The first probe fails to open the file, the later ones succeed. *)
Definition flaky_world : world :=
  {| strdup_ok := strdup_ok healthy_world;
     sd_watchdog_enabled := 0;
     sd_watchdog_usec := 0;
     stat := stat healthy_world;
     probe := fun k => match k with
                       | O => {| memalign_ret := 0; open_ret := -1; lseek_end_ret := 0;
                                 lseek_set_ret := 0; read_ret := fun _ => 0;
                                 close_ret := 0 |}
                       | _ => healthy_probe 4096
                       end;
     signalled := signalled healthy_world |}.

(** The globals and the trace [parse_args] leaves. *)
Definition parsed_globals (argv : list string) (w : world) : globals :=
  snd (fst (parse_args argv w initial_globals)).

(** ** What a trace shows *)

Definition count_events (p : event -> bool) (t : trace) : nat :=
  List.length (filter p t).

Definition is_read (e : event) : bool :=
  match e with EvRead _ _ => true | _ => false end.

Definition is_memalign (e : event) : bool :=
  match e with EvMemalign _ => true | _ => false end.

Definition is_free (e : event) : bool :=
  match e with EvFree => true | _ => false end.

Definition is_close (e : event) : bool :=
  match e with EvClose _ _ => true | _ => false end.

Definition is_usleep (e : event) : bool :=
  match e with EvUsleep _ => true | _ => false end.

(** Lines on standard output or on the error stream. *)
Definition is_output (e : event) : bool :=
  match e with EvStdout _ | EvStderr _ => true | _ => false end.

(** The calls of [read], and of [test_read] (each call starts with one
    [posix_memalign]), and the completed loop iterations (each ends
    with one [usleep]). *)
Definition read_calls : trace -> nat := count_events is_read.
Definition probe_calls : trace -> nat := count_events is_memalign.
Definition iterations_run : trace -> nat := count_events is_usleep.

(** The messages sent with [sd_notify], in order. *)
Definition notifications (t : trace) : list string :=
  flat_map (fun e => match e with EvNotify s => [s] | _ => [] end) t.

(** The number of bytes the [read] calls delivered. *)
Definition bytes_delivered (t : trace) : Z :=
  fold_right Z.add 0
    (map (fun e => match e with EvRead _ ret => Z.max 0 ret | _ => 0 end) t).

(** The buffer and the descriptor a probe holds. *)
Record resources := {
  buffer_live : bool;
  fd_open : bool
}.

Definition no_resources : resources := {| buffer_live := false; fd_open := false |}.
Definition holding : resources := {| buffer_live := true; fd_open := true |}.

(** The effect of one event on the resources held; [None] when the
    event misuses them: a second allocation or open while the first is
    still held, a use of the buffer or of the descriptor that is not
    held, a second [free] or [close].  [close] gives the descriptor back
    whatever it returns. *)
Definition track_event (r : resources) (e : event) : option resources :=
  match e with
  | EvMemalign ret =>
      if buffer_live r then None
      else Some {| buffer_live := (ret =? 0); fd_open := fd_open r |}
  | EvMemset => if buffer_live r then Some r else None
  | EvOpen _ ret =>
      if fd_open r then None
      else Some {| buffer_live := buffer_live r; fd_open := (0 <=? ret) |}
  | EvLseek _ _ _ => if fd_open r then Some r else None
  | EvRead _ _ => if fd_open r && buffer_live r then Some r else None
  | EvClose _ _ =>
      if fd_open r then Some {| buffer_live := buffer_live r; fd_open := false |}
      else None
  | EvFree =>
      if buffer_live r then Some {| buffer_live := false; fd_open := fd_open r |}
      else None
  | _ => Some r
  end.

Fixpoint track (r : resources) (t : trace) : option resources :=
  match t with
  | [] => Some r
  | e :: t' =>
      match track_event r e with
      | Some r' => track r' t'
      | None => None
      end
  end.

(** ** The wording of the specification for [--interval] *)

Definition is_digit (c : ascii) : bool :=
  match digit_value c with Some _ => true | None => false end.

Fixpoint all_digits (s : string) : bool :=
  match s with
  | EmptyString => true
  | String c rest => is_digit c && all_digits rest
  end.

(** Follows the specification: a string is numeric when it is a decimal
    numeral, that is an optional sign and then digits, at least one, and
    nothing else. *)
Definition is_numeric (s : string) : bool :=
  match s with
  | String "-"%char (String c rest) | String "+"%char (String c rest) =>
      all_digits (String c rest)
  | String c rest => all_digits (String c rest)
  | EmptyString => false
  end.

(** Follows the specification: the value a numeric string denotes. *)
Definition numeric_value (s : string) : Z :=
  match s with
  | String "-"%char rest => - digits 0 rest
  | String "+"%char rest => digits 0 rest
  | _ => digits 0 s
  end.

(** Follows the specification: the argument of [--interval] is "numeric
    and denotes a positive value". *)
Definition numeric_positive (s : string) : bool :=
  is_numeric s && (0 <? numeric_value s).

(** What the code does with an argument of [--interval]: the parser goes
    on to the next option (accepted) or returns -1. *)
Definition interval_accepted (s : string) : bool :=
  match parse_options "" healthy_world [("i"%char, s)] initial_globals 0%nat with
  | (None, _, _) => true
  | _ => false
  end.

(** The number of calls of [strdup] the options [opts] make when all of
    them are processed. *)
Definition strdup_calls (opts : list getopt_ret) : nat :=
  List.length (filter (fun o => Ascii.eqb (fst o) "f"%char) opts).

(** ** More observations of a run *)

(** The successful probes among the [n] iterations that start at the
    test of [running] number [start]. *)
Fixpoint successes (path : string) (w : world) (start n : nat) : nat :=
  match n with
  | O => O
  | S n' =>
      let ok := if fst (test_read path (probe w start)) =? 0 then 1%nat else 0%nat in
      (ok + successes path w (S start) n')%nat
  end.

Definition is_stdout (e : event) : bool :=
  match e with EvStdout _ => true | _ => false end.

(** The line [Read test failed with code ...] of the monitor loop. *)
Definition is_failure_report (e : event) : bool :=
  match e with EvStderr (DiagReadTestFailed _) => true | _ => false end.

(** The events of [test_read]: its system calls and its lines on the
    error stream. *)
Definition is_probe_event (e : event) : bool :=
  match e with
  | EvMemalign _ | EvMemset | EvOpen _ _ | EvLseek _ _ _ | EvRead _ _
  | EvClose _ _ | EvFree => true
  | EvStderr (DiagReadTestFailed _) => false
  | EvStderr _ => true
  | _ => false
  end.

(** The events that touch neither the buffer nor the descriptor of a
    probe. *)
Definition leaves_resources (e : event) : bool :=
  match e with
  | EvStderr _ | EvStdout _ | EvNotify _ | EvUsleep _ | EvInstallHandlers
  | EvFreeTestFile => true
  | _ => false
  end.

(** The option characters [parse_args] has a [case] for. *)
Definition known_option (opt : ascii) : bool :=
  Ascii.eqb opt "f" || Ascii.eqb opt "i" || Ascii.eqb opt "v"
  || Ascii.eqb opt "d" || Ascii.eqb opt "h".

(** The code [test_read] returns for a [read] that does not deliver a
    full block, and the line it writes, [offset] being [bytes_read]. *)
Definition short_read_code (ret : Z) : Z :=
  if ret <? 0 then 4 else if ret =? 0 then 5 else 6.

Definition short_read_diag (offset ret : Z) : diag :=
  if ret <? 0 then DiagReadFailed offset
  else if ret =? 0 then DiagUnexpectedEOF offset
  else DiagPartialRead offset ret.

(** Every [read] fails at once. *)
Definition failing_probe : probe_world :=
  {| memalign_ret := 0; open_ret := 3; lseek_end_ret := 4096; lseek_set_ret := 0;
     read_ret := fun _ => -1; close_ret := 0 |}.

(** The third [read] of a file of eight blocks delivers 100 bytes. *)
Definition short_third_read : probe_world :=
  {| memalign_ret := 0; open_ret := 3; lseek_end_ret := 4096; lseek_set_ret := 0;
     read_ret := fun k => match k with 2%nat => 100 | _ => BUFFER_SIZE end;
     close_ret := 0 |}.

(** All the data is read and [close] fails. *)
Definition close_fails : probe_world :=
  {| memalign_ret := 0; open_ret := 3; lseek_end_ret := 1300; lseek_set_ret := 0;
     read_ret := fun _ => BUFFER_SIZE; close_ret := -1 |}.

(** The size seek fails. *)
Definition seek_end_fails : probe_world :=
  {| memalign_ret := 0; open_ret := 3; lseek_end_ret := -1; lseek_set_ret := 0;
     read_ret := fun _ => BUFFER_SIZE; close_ret := 0 |}.

(** A disk on which every probe fails, and no signal ever. *)
Definition dead_disk_world : world :=
  {| strdup_ok := fun _ => true;
     sd_watchdog_enabled := 0;
     sd_watchdog_usec := 0;
     stat := fun _ => {| stat_ret := 0; st_is_reg := true; st_size := 4096 |};
     probe := fun _ => failing_probe;
     signalled := fun _ => false |}.

(** No memory for the copy of the path. *)
Definition no_memory_world : world :=
  {| strdup_ok := fun _ => false;
     sd_watchdog_enabled := 0;
     sd_watchdog_usec := 0;
     stat := stat healthy_world;
     probe := probe healthy_world;
     signalled := signalled healthy_world |}.

(** The lengths of the sleeps, in order. *)
Definition sleeps (t : trace) : list Z :=
  flat_map (fun e => match e with EvUsleep us => [us] | _ => [] end) t.

(** The allocation of the buffer fails on a file of two blocks and a
    half. *)
Definition no_buffer : probe_world :=
  {| memalign_ret := 12; open_ret := 3; lseek_end_ret := 1300; lseek_set_ret := 0;
     read_ret := fun _ => BUFFER_SIZE; close_ret := 0 |}.

(** The number of bytes the [read] calls asked for: each call is
    [read(fd, read_buf, BUFFER_SIZE)]. *)
Definition bytes_requested (t : trace) : Z :=
  BUFFER_SIZE * Z.of_nat (read_calls t).

(** The tracker of a whole run.  On the events of a probe it is
    [track_event]; every other event (a notification to the supervisor,
    a sleep, a line of the loop or of the parser on standard output,
    the installation of the handlers, the release of the path) is
    faulted when the buffer or the descriptor is held at that moment. *)
Definition track_run_event (r : resources) (e : event) : option resources :=
  if is_probe_event e then track_event r e
  else if buffer_live r || fd_open r then None
  else Some r.

Fixpoint track_run (r : resources) (t : trace) : option resources :=
  match t with
  | [] => Some r
  | e :: t' =>
      match track_run_event r e with
      | Some r' => track_run r' t'
      | None => None
      end
  end.

(** * Properties *)

(** ** The models at work *)

Example getopt_long_ex :
  getopt_long ["--file=/mnt/data/probe"; "-vi"; "250"; "extra"; "--deb"; "-x"; "--"; "-h"]
  = [("f"%char, "/mnt/data/probe"); ("v"%char, ""); ("i"%char, "250");
     ("d"%char, ""); rejected].
Proof. reflexivity. Qed.

Example atoi_ex :
  map atoi ["250"; "  +7"; "-3"; "12abc"; "abc"; ""; "0.5"; "4294967297"]
  = [250; 7; -3; 12; 0; 0; 0; 1].
Proof. reflexivity. Qed.

(** A run on a healthy disk, stopped by a signal before the third test
    of [running]. *)
Example main_healthy_run :
  main 3 ["disk-watchdogd"; "--file"; "/mnt/data/probe"; "--interval"; "250"] healthy_world
  = (Some 0,
     [EvInstallHandlers; EvNotify "READY=1"]
     ++ snd (test_read "/mnt/data/probe" (healthy_probe 4096))
     ++ [EvNotify "WATCHDOG=1"; EvUsleep 250000]
     ++ snd (test_read "/mnt/data/probe" (healthy_probe 4096))
     ++ [EvNotify "WATCHDOG=1"; EvUsleep 250000; EvFreeTestFile]).
Proof. reflexivity. Qed.

(** A probe of a file of two blocks and a half. *)
Example test_read_1300 :
  test_read "/mnt/data/probe" (healthy_probe 1300)
  = (0, [EvMemalign 0; EvMemset; EvOpen "/mnt/data/probe" 3;
         EvLseek 3 SEEK_END 1300; EvLseek 3 SEEK_SET 0;
         EvRead 3 512; EvRead 3 512; EvClose 3 0; EvFree]).
Proof. reflexivity. Qed.

(** ** The read loop *)

(** The loop, unfolded once. *)
Lemma read_loop_eq w fd a b k :
  read_loop w fd a b k =
  if b <? a then
    if read_ret w k <? 0 then
      (Some 4, b, [EvRead fd (read_ret w k); EvStderr (DiagReadFailed b);
                   EvClose fd (close_ret w); EvFree])
    else if read_ret w k =? 0 then
      (Some 5, b, [EvRead fd (read_ret w k); EvStderr (DiagUnexpectedEOF b);
                   EvClose fd (close_ret w); EvFree])
    else if negb (read_ret w k =? BUFFER_SIZE) then
      (Some 6, b, [EvRead fd (read_ret w k); EvStderr (DiagPartialRead b (read_ret w k));
                   EvClose fd (close_ret w); EvFree])
    else
      let '(r, b', t) := read_loop w fd a (b + read_ret w k) (S k) in
      (r, b', EvRead fd (read_ret w k) :: t)
  else (None, b, []).
Proof.
  funelim (read_loop w fd a b k);
    repeat match goal with
           | E : ?c = true |- context [?c] => rewrite E
           | E : ?c = false |- context [?c] => rewrite E
           end; reflexivity.
Qed.

(** When every [read] delivers a full block, the loop makes [n] calls to
    cover [n] blocks and then ends. *)
Lemma read_loop_full_blocks w fd :
  (forall k, read_ret w k = BUFFER_SIZE) ->
  forall n b k,
    read_loop w fd (b + BUFFER_SIZE * Z.of_nat n) b k
    = (None, b + BUFFER_SIZE * Z.of_nat n, repeat (EvRead fd BUFFER_SIZE) n).
Proof.
  intros Hfull n.
  induction n as [|n IH]; intros b k; rewrite read_loop_eq.
  - replace (b + BUFFER_SIZE * Z.of_nat 0) with b by lia.
    rewrite Z.ltb_irrefl. reflexivity.
  - assert (Hlt : (b <? b + BUFFER_SIZE * Z.of_nat (S n)) = true)
      by (apply Z.ltb_lt; unfold BUFFER_SIZE; lia).
    rewrite Hlt, Hfull. cbn -[Z.of_nat read_loop Z.mul Z.add].
    replace (b + BUFFER_SIZE * Z.of_nat (S n))
      with (b + BUFFER_SIZE + BUFFER_SIZE * Z.of_nat n) by lia.
    rewrite IH. reflexivity.
Qed.

(** The codes the loop body returns. *)
Lemma read_loop_codes w fd a b k code b' t :
  read_loop w fd a b k = (Some code, b', t) -> code = 4 \/ code = 5 \/ code = 6.
Proof.
  funelim (read_loop w fd a b k); intros E.
  - discriminate.
  - inversion E; auto.
  - inversion E; auto.
  - inversion E; auto.
  - destruct (read_loop _ _ _ _ _) as [[r b0] t0] eqn:Er.
    inversion E; subst. eauto.
Qed.

(** ** Observations of traces *)

Lemma count_events_app p t1 t2 :
  count_events p (t1 ++ t2) = (count_events p t1 + count_events p t2)%nat.
Proof. unfold count_events. rewrite filter_app, length_app. reflexivity. Qed.

Lemma count_events_cons p e t :
  count_events p (e :: t) = ((if p e then 1 else 0) + count_events p t)%nat.
Proof. unfold count_events. simpl. destruct (p e); reflexivity. Qed.

Lemma count_events_repeat p e n :
  count_events p (repeat e n) = if p e then n else 0%nat.
Proof.
  unfold count_events.
  induction n as [|n IH]; simpl.
  - destruct (p e); reflexivity.
  - destruct (p e); simpl; rewrite IH; reflexivity.
Qed.

Lemma notifications_app t1 t2 :
  notifications (t1 ++ t2) = notifications t1 ++ notifications t2.
Proof. apply flat_map_app. Qed.

Lemma bytes_delivered_app t1 t2 :
  bytes_delivered (t1 ++ t2) = bytes_delivered t1 + bytes_delivered t2.
Proof.
  unfold bytes_delivered.
  induction t1 as [|e t1 IH]; simpl; [reflexivity | rewrite IH; lia].
Qed.

Lemma bytes_delivered_repeat fd n :
  bytes_delivered (repeat (EvRead fd BUFFER_SIZE) n) = BUFFER_SIZE * Z.of_nat n.
Proof.
  unfold bytes_delivered.
  induction n as [|n IH]; [reflexivity |].
  cbn [repeat map fold_right]. rewrite IH. unfold BUFFER_SIZE. lia.
Qed.

Lemma track_app r t1 t2 :
  track r (t1 ++ t2) =
  match track r t1 with Some r' => track r' t2 | None => None end.
Proof.
  revert r; induction t1 as [|e t1 IH]; intros r; simpl; [reflexivity |].
  destruct (track_event r e); [apply IH | reflexivity].
Qed.

(** A trace of lines of output holds no system call, no notification
    and no sleep. *)
Lemma output_only_silent t :
  forallb is_output t = true ->
  notifications t = [] /\ probe_calls t = 0%nat /\ iterations_run t = 0%nat
  /\ read_calls t = 0%nat.
Proof.
  induction t as [|e t IH]; simpl; [auto |].
  intros H. apply andb_true_iff in H as [He Ht].
  destruct (IH Ht) as (IH1 & IH2 & IH3 & IH4).
  unfold probe_calls, iterations_run, read_calls, count_events in *.
  destruct e; try discriminate; simpl; auto.
Qed.

Lemma forallb_output_app t1 t2 :
  forallb is_output (t1 ++ t2) = forallb is_output t1 && forallb is_output t2.
Proof. apply forallb_app. Qed.

Lemma LOG_VERBOSE_output g l : forallb is_output (LOG_VERBOSE g l) = true.
Proof. unfold LOG_VERBOSE. destruct (verbose_mode g); reflexivity. Qed.

(** ** The prober *)

(** The loop uses the buffer and the descriptor while it holds them and
    gives both back exactly when it returns from [test_read] itself. *)
Lemma read_loop_track w fd a b k :
  track holding (snd (read_loop w fd a b k)) =
  Some (match fst (fst (read_loop w fd a b k)) with
        | Some _ => no_resources
        | None => holding
        end).
Proof.
  funelim (read_loop w fd a b k); try reflexivity.
  destruct (read_loop _ _ _ _ _) as [[r b0] t0]; simpl in *.
  assumption.
Qed.

(** Inside the loop nothing talks to the supervisor and nothing sleeps. *)
Lemma read_loop_quiet w fd a b k :
  notifications (snd (read_loop w fd a b k)) = []
  /\ iterations_run (snd (read_loop w fd a b k)) = 0%nat
  /\ probe_calls (snd (read_loop w fd a b k)) = 0%nat.
Proof.
  funelim (read_loop w fd a b k); try (repeat split; reflexivity).
  destruct (read_loop _ _ _ _ _) as [[r b0] t0]; simpl in *.
  assumption.
Qed.

(** [test_read] once the buffer, the descriptor and the size are there. *)
Lemma test_read_opened path w :
  memalign_ret w = 0 -> 0 <= open_ret w -> 0 <= lseek_end_ret w ->
  test_read path w =
  let fd := open_ret w in
  let t2 := [EvMemalign 0; EvMemset; EvOpen path fd;
             EvLseek fd SEEK_END (lseek_end_ret w);
             EvLseek fd SEEK_SET (lseek_set_ret w)] in
  let '(r, _, tl) := read_loop w fd (aligned_size (lseek_end_ret w)) 0 0 in
  match r with
  | Some code => (code, t2 ++ tl)
  | None =>
      if close_ret w <? 0 then
        (7, t2 ++ tl ++ [EvClose fd (close_ret w); EvStderr DiagCloseFailed; EvFree])
      else (0, t2 ++ tl ++ [EvClose fd (close_ret w); EvFree])
  end.
Proof.
  intros Hm Ho Hs. unfold test_read.
  rewrite Hm. simpl negb. cbv iota.
  destruct (open_ret w <? 0) eqn:E1; [apply Z.ltb_lt in E1; lia |].
  destruct (lseek_end_ret w <? 0) eqn:E2; [apply Z.ltb_lt in E2; lia |].
  reflexivity.
Qed.

Lemma aligned_size_floor s :
  0 <= s -> aligned_size s = s / BUFFER_SIZE * BUFFER_SIZE.
Proof.
  intros Hs. unfold aligned_size.
  rewrite Z.quot_div_nonneg by (unfold BUFFER_SIZE; lia). reflexivity.
Qed.

(** A probe whose steps all succeed and whose reads all deliver a full
    block: its whole trace. *)
Lemma test_read_full_blocks path w :
  memalign_ret w = 0 -> 0 <= open_ret w -> 0 <= lseek_end_ret w ->
  (forall k, read_ret w k = BUFFER_SIZE) -> 0 <= close_ret w ->
  test_read path w =
  (0, [EvMemalign 0; EvMemset; EvOpen path (open_ret w);
       EvLseek (open_ret w) SEEK_END (lseek_end_ret w);
       EvLseek (open_ret w) SEEK_SET (lseek_set_ret w)]
      ++ repeat (EvRead (open_ret w) BUFFER_SIZE)
                (Z.to_nat (lseek_end_ret w / BUFFER_SIZE))
      ++ [EvClose (open_ret w) (close_ret w); EvFree]).
Proof.
  intros Hm Ho Hs Hfull Hc.
  rewrite test_read_opened by assumption. cbv zeta.
  rewrite aligned_size_floor by assumption.
  set (n := Z.to_nat (lseek_end_ret w / BUFFER_SIZE)).
  assert (Hn : lseek_end_ret w / BUFFER_SIZE * BUFFER_SIZE
               = 0 + BUFFER_SIZE * Z.of_nat n).
  { subst n. rewrite Z2Nat.id; [lia |].
    apply Z.div_pos; unfold BUFFER_SIZE; lia. }
  rewrite Hn, read_loop_full_blocks by assumption.
  destruct (close_ret w <? 0) eqn:E; [apply Z.ltb_lt in E; lia |].
  reflexivity.
Qed.

(** What the loop gives back, counted. *)
Lemma read_loop_release_counts w fd a b k :
  let t := snd (read_loop w fd a b k) in
  let n := match fst (fst (read_loop w fd a b k)) with Some _ => 1%nat | None => 0%nat end in
  count_events is_free t = n /\ count_events is_close t = n.
Proof.
  funelim (read_loop w fd a b k); try (split; reflexivity).
  destruct (read_loop _ _ _ _ _) as [[r b0] t0]; simpl in *.
  assumption.
Qed.

(** A loop that runs to its end has seen full blocks only. *)
Lemma read_loop_none_full w fd a b k :
  fst (fst (read_loop w fd a b k)) = None ->
  forall j, (k <= j < k + read_calls (snd (read_loop w fd a b k)))%nat ->
            read_ret w j = BUFFER_SIZE.
Proof.
  funelim (read_loop w fd a b k); try discriminate.
  - simpl. intros _ j Hj. unfold read_calls, count_events in Hj. simpl in Hj. lia.
  - destruct (read_loop _ _ _ _ _) as [[r b0] t0]; simpl in *.
    intros Hr j Hj.
    unfold read_calls, count_events in *. simpl in Hj.
    destruct (Nat.eq_dec j k) as [-> | Hne].
    + pose proof (proj1 (negb_false_iff _) Hfull) as Hf.
      apply Z.eqb_eq in Hf. exact Hf.
    + apply H; [assumption | lia].
Qed.

(** The answer to the [lseek] back to the start has no influence on the
    loop. *)
Lemma read_loop_reseek w v fd a b k :
  read_loop (set_lseek_set_ret w v) fd a b k = read_loop w fd a b k.
Proof.
  funelim (read_loop w fd a b k);
    rewrite read_loop_eq; cbn [set_lseek_set_ret read_ret close_ret];
    repeat match goal with
           | E : ?c = true |- context [?c] => rewrite E
           | E : ?c = false |- context [?c] => rewrite E
           end; try reflexivity.
  match goal with
  | IH : forall v, read_loop _ _ _ _ _ = _ |- _ => rewrite IH
  end.
  reflexivity.
Qed.

(** X5.  The code of [test_read] is one of 0, ..., 7. *)
Lemma test_read_code_range path w : 0 <= fst (test_read path w) <= 7.
Proof.
  unfold test_read.
  destruct (negb (memalign_ret w =? 0)); [simpl; lia |].
  cbv zeta.
  destruct (open_ret w <? 0); [simpl; lia |].
  destruct (lseek_end_ret w <? 0); [simpl; lia |].
  destruct (read_loop _ _ _ _ _) as [[[code|] b'] tl] eqn:E.
  - apply read_loop_codes in E. simpl. lia.
  - destruct (close_ret w <? 0); simpl; lia.
Qed.

(** X9.  Each of the eight codes is the code of some probe. *)
Lemma test_read_codes_reachable path c :
  0 <= c <= 7 -> exists w, fst (test_read path w) = c.
Proof.
  intros Hc.
  pose (mk := fun m o s r cl =>
          {| memalign_ret := m; open_ret := o; lseek_end_ret := s;
             lseek_set_ret := 0; read_ret := fun _ => r; close_ret := cl |}).
  assert (H : c = 0 \/ c = 1 \/ c = 2 \/ c = 3 \/ c = 4 \/ c = 5 \/ c = 6 \/ c = 7)
    by lia.
  destruct H as [-> | [-> | [-> | [-> | [-> | [-> | [-> | ->]]]]]]].
  - exists (mk 0 3 1024 512 0). reflexivity.
  - exists (mk 12 3 1024 512 0). reflexivity.
  - exists (mk 0 (-1) 1024 512 0). reflexivity.
  - exists (mk 0 3 (-1) 512 0). reflexivity.
  - exists (mk 0 3 1024 (-1) 0). reflexivity.
  - exists (mk 0 3 1024 0 0). reflexivity.
  - exists (mk 0 3 1024 100 0). reflexivity.
  - exists (mk 0 3 1024 512 (-1)). reflexivity.
Qed.

(** X6.  Code 0 comes out only when the allocation, the open, the seek
    to the end, every [read] that was made, and the close succeeded.
    The seek back to the start is absent from the list: the code does
    not look at what it returns. *)
Lemma test_read_success_steps path w :
  fst (test_read path w) = 0 ->
  memalign_ret w = 0 /\ 0 <= open_ret w /\ 0 <= lseek_end_ret w
  /\ (forall j, (j < read_calls (snd (test_read path w)))%nat ->
                read_ret w j = BUFFER_SIZE)
  /\ 0 <= close_ret w.
Proof.
  unfold test_read.
  destruct (memalign_ret w =? 0) eqn:Em; [| simpl; discriminate].
  cbn [negb]. cbv zeta.
  destruct (open_ret w <? 0) eqn:Eo; [simpl; discriminate |].
  destruct (lseek_end_ret w <? 0) eqn:Es; [simpl; discriminate |].
  pose proof (read_loop_none_full w (open_ret w)
                (aligned_size (lseek_end_ret w)) 0 0) as Hfull.
  destruct (read_loop _ _ _ _ _) as [[[code|] b'] tl] eqn:E.
  - apply read_loop_codes in E. simpl. lia.
  - destruct (close_ret w <? 0) eqn:Ec; [simpl; discriminate |].
    simpl in *. intros _.
    apply Z.eqb_eq in Em. apply Z.ltb_ge in Eo, Es, Ec.
    repeat split; try assumption.
    intros j Hj. apply Hfull; [reflexivity |].
    unfold read_calls in *.
    change (count_events is_read
              (EvMemalign (memalign_ret w) :: EvMemset
               :: EvOpen path (open_ret w)
               :: EvLseek (open_ret w) SEEK_END (lseek_end_ret w)
               :: EvLseek (open_ret w) SEEK_SET (lseek_set_ret w)
               :: tl ++ [EvClose (open_ret w) (close_ret w); EvFree]))
      with (count_events is_read (tl ++ [EvClose (open_ret w) (close_ret w); EvFree]))
      in Hj.
    rewrite count_events_app in Hj. simpl in Hj.
    unfold count_events in Hj at 2. simpl in Hj. lia.
Qed.

(** X7.  A failure of the seek that determines the size is reported
    with code 3, after the descriptor is closed and the buffer
    released; no [read] is made. *)
Lemma seek_end_failure path w :
  memalign_ret w = 0 -> 0 <= open_ret w -> lseek_end_ret w < 0 ->
  test_read path w =
  (3, [EvMemalign 0; EvMemset; EvOpen path (open_ret w);
       EvLseek (open_ret w) SEEK_END (lseek_end_ret w); EvStderr DiagLseekFailed;
       EvClose (open_ret w) (close_ret w); EvFree]).
Proof.
  intros Hm Ho Hs. unfold test_read. rewrite Hm. cbn [Z.eqb negb]. cbv zeta.
  destruct (open_ret w <? 0) eqn:E1; [apply Z.ltb_lt in E1; lia |].
  destruct (lseek_end_ret w <? 0) eqn:E2; [| apply Z.ltb_ge in E2; lia].
  reflexivity.
Qed.

(** X8.  Whatever the seek back to the start returns, [test_read]
    returns the same code: that return value is never looked at. *)
Lemma reseek_result_ignored path w v :
  fst (test_read path (set_lseek_set_ret w v)) = fst (test_read path w).
Proof.
  unfold test_read. cbn [set_lseek_set_ret memalign_ret open_ret lseek_end_ret
                          lseek_set_ret close_ret].
  destruct (negb (memalign_ret w =? 0)); [reflexivity |].
  cbv zeta.
  destruct (open_ret w <? 0); [reflexivity |].
  destruct (lseek_end_ret w <? 0); [reflexivity |].
  change {| memalign_ret := memalign_ret w; open_ret := open_ret w;
            lseek_end_ret := lseek_end_ret w; lseek_set_ret := v;
            read_ret := read_ret w; close_ret := close_ret w |}
    with (set_lseek_set_ret w v).
  rewrite read_loop_reseek.
  destruct (read_loop _ _ _ _ _) as [[[code|] b'] tl]; [reflexivity |].
  destruct (close_ret w <? 0); reflexivity.
Qed.

(** C3, as stated, fails: on a readable file of 1300 bytes whose reads
    all deliver a full block, the probe returns 7 when [close] fails,
    and it returns 1 without reading a byte when the allocation of the
    buffer fails. *)
Lemma full_block_reads_without_success :
  (memalign_ret close_fails = 0
   /\ 0 <= open_ret close_fails
   /\ lseek_end_ret close_fails = 1300
   /\ 1300 mod BUFFER_SIZE <> 0
   /\ read_ret close_fails = (fun _ => BUFFER_SIZE)
   /\ fst (test_read "/mnt/data/probe" close_fails) = 7)
  /\ (0 <= open_ret no_buffer
      /\ lseek_end_ret no_buffer = 1300
      /\ read_ret no_buffer = (fun _ => BUFFER_SIZE)
      /\ 0 <= close_ret no_buffer
      /\ fst (test_read "/mnt/data/probe" no_buffer) = 1
      /\ bytes_delivered (snd (test_read "/mnt/data/probe" no_buffer)) = 0).
Proof.
  split.
  - repeat split; try reflexivity; vm_compute; discriminate.
  - repeat split; try reflexivity; vm_compute; discriminate.
Qed.

(** C3, amended.  On a file that can be opened and whose size [S] is
    not a multiple of the 512-byte buffer, a probe in which the
    allocation of the buffer and the close succeed and whose [read]
    calls all deliver a full block returns the success code 0 after
    reading exactly [floor(S/512) * 512] bytes, in [floor(S/512)]
    calls: the partial block at the end of the file, [S mod 512] bytes,
    is left unread and is no error. *)
Theorem partial_trailing_block_skipped :
  forall (path : string) (w : probe_world) (S : Z),
    memalign_ret w = 0 ->
    0 <= open_ret w ->
    lseek_end_ret w = S ->
    0 <= S ->
    S mod BUFFER_SIZE <> 0 ->
    (forall k, read_ret w k = BUFFER_SIZE) ->
    0 <= close_ret w ->
    fst (test_read path w) = 0
    /\ bytes_delivered (snd (test_read path w)) = S / BUFFER_SIZE * BUFFER_SIZE
    /\ read_calls (snd (test_read path w)) = Z.to_nat (S / BUFFER_SIZE)
    /\ S - bytes_delivered (snd (test_read path w)) = S mod BUFFER_SIZE
    /\ bytes_delivered (snd (test_read path w)) < S.
Proof.
  intros path w S Hm Ho HS Hpos Hmod Hfull Hc. subst S.
  rewrite test_read_full_blocks by assumption.
  cbn [fst snd].
  assert (Hb : bytes_delivered
                 ([EvMemalign 0; EvMemset; EvOpen path (open_ret w);
                   EvLseek (open_ret w) SEEK_END (lseek_end_ret w);
                   EvLseek (open_ret w) SEEK_SET (lseek_set_ret w)]
                  ++ repeat (EvRead (open_ret w) BUFFER_SIZE)
                       (Z.to_nat (lseek_end_ret w / BUFFER_SIZE))
                  ++ [EvClose (open_ret w) (close_ret w); EvFree])
               = lseek_end_ret w / BUFFER_SIZE * BUFFER_SIZE).
  { rewrite !bytes_delivered_app, bytes_delivered_repeat.
    rewrite Z2Nat.id by (apply Z.div_pos; unfold BUFFER_SIZE; lia).
    unfold bytes_delivered; cbn [map fold_right]. lia. }
  rewrite Hb.
  pose proof (Z.div_mod (lseek_end_ret w) BUFFER_SIZE) as Hdm.
  pose proof (Z.mod_pos_bound (lseek_end_ret w) BUFFER_SIZE) as Hbd.
  unfold BUFFER_SIZE in *.
  repeat split; try lia.
  unfold read_calls.
  rewrite !count_events_app, count_events_repeat.
  unfold count_events. cbn [filter is_read List.length]. lia.
Qed.

Lemma partial_trailing_block_skipped_witness :
  fst (test_read "/mnt/data/probe" (healthy_probe 1300)) = 0
  /\ bytes_delivered (snd (test_read "/mnt/data/probe" (healthy_probe 1300)))
     = 1300 / BUFFER_SIZE * BUFFER_SIZE
  /\ read_calls (snd (test_read "/mnt/data/probe" (healthy_probe 1300)))
     = Z.to_nat (1300 / BUFFER_SIZE)
  /\ 1300 - bytes_delivered (snd (test_read "/mnt/data/probe" (healthy_probe 1300)))
     = 1300 mod BUFFER_SIZE
  /\ bytes_delivered (snd (test_read "/mnt/data/probe" (healthy_probe 1300))) < 1300.
Proof.
  apply (partial_trailing_block_skipped "/mnt/data/probe" (healthy_probe 1300) 1300).
  - reflexivity.
  - simpl; lia.
  - reflexivity.
  - lia.
  - vm_compute; discriminate.
  - intros k; reflexivity.
  - simpl; lia.
Defined.

(** C4.  On a file shorter than the 512-byte buffer the aligned size is
    0, the probe makes no [read] call, and it returns the success code 0
    (the allocation, the open, the seek that gives the size and the
    close being successful). *)
Theorem small_file_no_read :
  forall (path : string) (w : probe_world),
    memalign_ret w = 0 ->
    0 <= open_ret w ->
    0 <= lseek_end_ret w < BUFFER_SIZE ->
    0 <= close_ret w ->
    aligned_size (lseek_end_ret w) = 0
    /\ fst (test_read path w) = 0
    /\ read_calls (snd (test_read path w)) = 0%nat
    /\ snd (test_read path w)
       = [EvMemalign 0; EvMemset; EvOpen path (open_ret w);
          EvLseek (open_ret w) SEEK_END (lseek_end_ret w);
          EvLseek (open_ret w) SEEK_SET (lseek_set_ret w);
          EvClose (open_ret w) (close_ret w); EvFree].
Proof.
  intros path w Hm Ho Hs Hc.
  assert (Ha : aligned_size (lseek_end_ret w) = 0).
  { unfold aligned_size. rewrite Z.quot_small by assumption. reflexivity. }
  rewrite test_read_opened by (assumption || lia). cbv zeta.
  rewrite Ha, read_loop_eq, Z.ltb_irrefl.
  destruct (close_ret w <? 0) eqn:E; [apply Z.ltb_lt in E; lia |].
  repeat split; reflexivity.
Qed.

Lemma small_file_no_read_witness :
  aligned_size (lseek_end_ret (healthy_probe 100)) = 0
  /\ fst (test_read "/mnt/data/probe" (healthy_probe 100)) = 0
  /\ read_calls (snd (test_read "/mnt/data/probe" (healthy_probe 100))) = 0%nat
  /\ snd (test_read "/mnt/data/probe" (healthy_probe 100))
     = [EvMemalign 0; EvMemset; EvOpen "/mnt/data/probe" 3;
        EvLseek 3 SEEK_END 100; EvLseek 3 SEEK_SET 0; EvClose 3 0; EvFree].
Proof.
  apply (small_file_no_read "/mnt/data/probe" (healthy_probe 100)).
  - reflexivity.
  - simpl; lia.
  - simpl; unfold BUFFER_SIZE; lia.
  - simpl; lia.
Defined.

(** C5, at the input that fails.  The seek back to the start of a file
    of two blocks returns -1 and the position stays at the end, where
    [read] delivers nothing: [test_read] goes on to read and returns 5
    (unexpected end of file), not the seek failure 3. *)
Theorem reseek_failure_not_reported :
  lseek_set_ret reseek_fails = -1
  /\ test_read "/mnt/data/probe" reseek_fails
     = (5, [EvMemalign 0; EvMemset; EvOpen "/mnt/data/probe" 3;
            EvLseek 3 SEEK_END 1024; EvLseek 3 SEEK_SET (-1);
            EvRead 3 0; EvStderr (DiagUnexpectedEOF 0); EvClose 3 0; EvFree])
  /\ fst (test_read "/mnt/data/probe" reseek_fails) <> 3.
Proof.
  split; [reflexivity |]. split; [reflexivity |].
  vm_compute. discriminate.
Qed.

(** C8.  Whatever the system answers, one call of [test_read] ends
    holding neither the buffer nor the descriptor, never uses or gives
    back one it does not hold, calls [free] exactly once when the
    allocation succeeded (and not at all otherwise) and [close] exactly
    once when the open succeeded (and not at all otherwise). *)
Theorem probe_releases_buffer_and_descriptor :
  forall (path : string) (w : probe_world),
    track no_resources (snd (test_read path w)) = Some no_resources
    /\ count_events is_free (snd (test_read path w))
       = (if memalign_ret w =? 0 then 1%nat else 0%nat)
    /\ count_events is_close (snd (test_read path w))
       = (if (memalign_ret w =? 0) && (0 <=? open_ret w) then 1%nat else 0%nat).
Proof.
  intros path w. unfold test_read.
  destruct (memalign_ret w =? 0) eqn:Em; cbn [negb andb].
  2:{ simpl. rewrite Em. repeat split; reflexivity. }
  cbv zeta.
  destruct (open_ret w <? 0) eqn:Eo.
  { assert (Eo' : (0 <=? open_ret w) = false)
      by (apply Z.leb_gt; apply Z.ltb_lt in Eo; exact Eo).
    simpl. rewrite Em, Eo'. repeat split; reflexivity. }
  assert (Eo' : (0 <=? open_ret w) = true)
    by (apply Z.leb_le; apply Z.ltb_ge in Eo; exact Eo).
  rewrite Eo'.
  destruct (lseek_end_ret w <? 0) eqn:Es.
  { simpl. rewrite Em, Eo'. repeat split; reflexivity. }
  pose proof (read_loop_track w (open_ret w) (aligned_size (lseek_end_ret w)) 0 0) as Ht.
  pose proof (read_loop_release_counts w (open_ret w)
                (aligned_size (lseek_end_ret w)) 0 0) as [Hf Hcl].
  unfold holding in Ht.
  destruct (read_loop _ _ _ _ _) as [[[code|] b'] tl]; cbn [fst snd] in *;
    [| destruct (close_ret w <? 0)];
    cbn [app fst snd];
    rewrite ?count_events_cons, ?count_events_app, ?Hf, ?Hcl;
    cbn [track track_event buffer_live fd_open no_resources];
    rewrite ?Em, ?Eo'; cbn [track track_event buffer_live fd_open];
    rewrite ?track_app, Ht; repeat split; reflexivity.
Qed.

(** C10, at the input that fails.  On a file of 100 bytes the seek back
    to the start returns -1; no read follows and [test_read] returns 0,
    the success code, although a step of the probe failed. *)
Theorem success_code_despite_failed_reseek :
  lseek_set_ret reseek_fails_small = -1
  /\ test_read "/mnt/data/probe" reseek_fails_small
     = (0, [EvMemalign 0; EvMemset; EvOpen "/mnt/data/probe" 3;
            EvLseek 3 SEEK_END 100; EvLseek 3 SEEK_SET (-1);
            EvClose 3 0; EvFree]).
Proof. split; reflexivity. Qed.

(** A probe sends nothing to the supervisor, never sleeps, and starts
    with its one allocation. *)
Lemma test_read_quiet path w :
  notifications (snd (test_read path w)) = []
  /\ iterations_run (snd (test_read path w)) = 0%nat
  /\ probe_calls (snd (test_read path w)) = 1%nat.
Proof.
  unfold test_read.
  destruct (negb (memalign_ret w =? 0)); [repeat split; reflexivity |].
  cbv zeta.
  destruct (open_ret w <? 0); [repeat split; reflexivity |].
  destruct (lseek_end_ret w <? 0); [repeat split; reflexivity |].
  pose proof (read_loop_quiet w (open_ret w) (aligned_size (lseek_end_ret w)) 0 0)
    as (Hn & Hi & Hp).
  unfold iterations_run, probe_calls in *.
  destruct (read_loop _ _ _ _ _) as [[[code|] b'] tl]; cbn [fst snd] in *;
    [| destruct (close_ret w <? 0)];
    cbn [app fst snd];
    rewrite ?notifications_app, ?count_events_cons, ?count_events_app, ?Hi, ?Hp;
    cbn [notifications flat_map app]; fold (notifications tl);
    rewrite ?notifications_app, ?Hn; repeat split; reflexivity.
Qed.

Lemma notifications_In s t : In (EvNotify s) t <-> In s (notifications t).
Proof.
  unfold notifications. rewrite in_flat_map. split.
  - intros H. exists (EvNotify s). split; [assumption | left; reflexivity].
  - intros (e & He & Hs). destruct e; simpl in Hs; try contradiction.
    destruct Hs as [-> | []]. assumption.
Qed.

(** ** The parser *)

Lemma parse_options_output prog w opts :
  forall g n, forallb is_output (snd (parse_options prog w opts g n)) = true.
Proof.
  induction opts as [|[opt optarg] rest IH]; intros g n; simpl; [reflexivity |].
  destruct (Ascii.eqb opt "f").
  { destruct (strdup_ok w n); [apply IH | reflexivity]. }
  destruct (Ascii.eqb opt "i").
  { destruct (to_int (atoi optarg * 1000) <=? 0); [reflexivity | apply IH]. }
  destruct (Ascii.eqb opt "v"); [apply IH |].
  destruct (Ascii.eqb opt "d"); [apply IH |].
  destruct (Ascii.eqb opt "h"); reflexivity.
Qed.

(** Options are processed in order: what follows a prefix that was
    processed to its end is processed from the globals the prefix
    left; a prefix that returned or exited hides what follows. *)
Lemma parse_options_app prog w pre post :
  forall g n,
    parse_options prog w (pre ++ post) g n =
    match parse_options prog w pre g n with
    | (None, g1, t1) =>
        let '(r, g2, t2) := parse_options prog w post g1 (n + strdup_calls pre) in
        (r, g2, t1 ++ t2)
    | (Some c, g1, t1) => (Some c, g1, t1)
    end.
Proof.
  induction pre as [|[opt optarg] rest IH]; intros g n.
  - simpl. rewrite Nat.add_0_r.
    destruct (parse_options prog w post g n) as [[r g2] t2]. reflexivity.
  - cbn [app parse_options]. unfold strdup_calls. cbn [filter fst].
    destruct (Ascii.eqb opt "f") eqn:Ef.
    { destruct (strdup_ok w n); [| reflexivity].
      rewrite IH. cbn [List.length]. rewrite Nat.add_succ_r. reflexivity. }
    destruct (Ascii.eqb opt "i").
    { destruct (interval_us (set_interval_us g (to_int (atoi optarg * 1000))) <=? 0);
        [reflexivity | apply IH]. }
    destruct (Ascii.eqb opt "v"); [apply IH |].
    destruct (Ascii.eqb opt "d"); [apply IH |].
    destruct (Ascii.eqb opt "h"); reflexivity.
Qed.

Lemma watchdog_adjust_output w g :
  forallb is_output (snd (watchdog_adjust w g)) = true.
Proof.
  unfold watchdog_adjust.
  destruct (negb (debug_mode g)); [| reflexivity].
  cbv zeta.
  destruct (sd_watchdog_enabled w >? 0); [| reflexivity].
  cbn [snd]. rewrite !forallb_output_app, !LOG_VERBOSE_output.
  destruct (negb (interval_us g =? DEFAULT_INTERVAL));
    [rewrite LOG_VERBOSE_output |]; reflexivity.
Qed.

Lemma watchdog_adjust_keeps w g :
  debug_mode (fst (watchdog_adjust w g)) = debug_mode g
  /\ test_file (fst (watchdog_adjust w g)) = test_file g
  /\ verbose_mode (fst (watchdog_adjust w g)) = verbose_mode g.
Proof.
  unfold watchdog_adjust.
  destruct (negb (debug_mode g)); [| auto].
  cbv zeta. destruct (sd_watchdog_enabled w >? 0); auto.
Qed.

(** What [parse_args] returns when it returns 0. *)
Lemma parse_args_ok argv w g c g' t :
  parse_args argv w g = (c, g', t) ->
  (exists g1 t1 path,
      parse_options (hd "" argv) w (getopt_long (tl argv)) g 0%nat = (None, g1, t1)
      /\ test_file g1 = Some path
      /\ c = Returns 0
      /\ g' = fst (watchdog_adjust w g1))
  \/ (c = Exits 0 \/ c = Returns (-1)).
Proof.
  unfold parse_args.
  destruct (parse_options _ _ _ _ _) as [[[c1|] g1] t1] eqn:E.
  - intros H; inversion H; subst. right.
    clear H. revert g E.
    generalize 0%nat. induction (getopt_long (tl argv)) as [|[opt optarg] rest IH];
      intros n g E; simpl in E; [discriminate |].
    destruct (Ascii.eqb opt "f").
    { destruct (strdup_ok w n); [eauto | inversion E; auto]. }
    destruct (Ascii.eqb opt "i").
    { destruct (to_int (atoi optarg * 1000) <=? 0); [inversion E; auto | eauto]. }
    destruct (Ascii.eqb opt "v"); [eauto |].
    destruct (Ascii.eqb opt "d"); [eauto |].
    destruct (Ascii.eqb opt "h"); inversion E; auto.
  - destruct (test_file g1) as [path|] eqn:Ef.
    + destruct (watchdog_adjust w g1) as [g2 t2] eqn:Ew.
      intros H; inversion H; subst. left.
      exists g1, t1, path. rewrite Ew. repeat split; assumption || reflexivity.
    + intros H; inversion H; auto.
Qed.

(** [parse_args] returns 0 only with [test_file] set. *)
Lemma parse_args_sets_file argv w g g' t :
  parse_args argv w g = (Returns 0, g', t) -> exists path, test_file g' = Some path.
Proof.
  intros H.
  destruct (parse_args_ok _ _ _ _ _ _ H) as [(g1 & t1 & path & _ & Hf & _ & ->) | [E | E]];
    try discriminate.
  exists path. pose proof (watchdog_adjust_keeps w g1) as (_ & Hk & _).
  rewrite Hk. exact Hf.
Qed.

Lemma parse_args_output argv w g :
  forallb is_output (snd (parse_args argv w g)) = true.
Proof.
  unfold parse_args.
  pose proof (parse_options_output (hd "" argv) w (getopt_long (tl argv)) g 0) as Ho.
  destruct (parse_options _ _ _ _ _) as [[[c1|] g1] t1]; cbn [snd] in *;
    [assumption |].
  destruct (test_file g1) as [path|].
  - pose proof (watchdog_adjust_output w g1) as Hw.
    destruct (watchdog_adjust w g1) as [g2 t2]. cbn [snd] in *.
    rewrite !forallb_output_app, Ho, Hw, !LOG_VERBOSE_output.
    destruct (debug_mode g2); [rewrite LOG_VERBOSE_output |]; reflexivity.
  - cbn [snd]. rewrite !forallb_output_app, Ho. reflexivity.
Qed.

(** An error of the parser ends the process with status 1, with nothing
    done but the parser's output. *)
Lemma main_parse_error fuel argv w :
  fst (fst (parse_args argv w initial_globals)) = Returns (-1) ->
  main fuel argv w = (Some 1, snd (parse_args argv w initial_globals)).
Proof.
  unfold main.
  destruct (parse_args argv w initial_globals) as [[r g] t]. cbn [fst snd].
  intros ->. reflexivity.
Qed.

Lemma main_parse_exit fuel argv w status :
  fst (fst (parse_args argv w initial_globals)) = Exits status ->
  main fuel argv w = (Some status, snd (parse_args argv w initial_globals)).
Proof.
  unfold main.
  destruct (parse_args argv w initial_globals) as [[r g] t]. cbn [fst snd].
  intros ->. reflexivity.
Qed.

(** ** The monitor loop *)

(** One iteration: what it returns, what it leaves of the loop state,
    and what it tells the supervisor. *)
Lemma loop_body_spec path g w st :
  exists tp,
    test_read path (probe w (round st)) = (fst (test_read path (probe w (round st))), tp)
    /\ loop_body path g w st =
       (fst (test_read path (probe w (round st))),
        {| running := running st;
           iteration := if verbose_mode g then to_int (iteration st + 1) else iteration st;
           round := S (round st) |},
        LOG_VERBOSE g (LogIteration (if verbose_mode g then to_int (iteration st + 1)
                                     else iteration st))
        ++ tp
        ++ (if negb (fst (test_read path (probe w (round st))) =? 0) then
              [EvStderr (DiagReadTestFailed (fst (test_read path (probe w (round st)))))]
            else
              LOG_VERBOSE g LogReadOk
              ++ (if negb (debug_mode g) then [EvNotify "WATCHDOG=1"] else []))
        ++ [EvUsleep (to_useconds (interval_us g))])
    /\ notifications tp = [].
Proof.
  unfold loop_body.
  pose proof (test_read_quiet path (probe w (round st))) as (Hn & _ & _).
  destruct (test_read path (probe w (round st))) as [res tp].
  exists tp. cbn [fst snd] in *. repeat split; try reflexivity; assumption.
Qed.

Lemma LOG_VERBOSE_notifications g l : notifications (LOG_VERBOSE g l) = [].
Proof. unfold LOG_VERBOSE. destruct (verbose_mode g); reflexivity. Qed.

(** The heartbeats of one iteration. *)
Lemma loop_body_notifications path g w st :
  notifications (snd (loop_body path g w st)) =
  if (fst (fst (loop_body path g w st)) =? 0) && negb (debug_mode g)
  then ["WATCHDOG=1"] else [].
Proof.
  destruct (loop_body_spec path g w st) as (tp & _ & -> & Hn).
  cbn [fst snd].
  rewrite !notifications_app, LOG_VERBOSE_notifications, Hn.
  destruct (fst (test_read path (probe w (round st))) =? 0); cbn [negb andb app].
  - rewrite notifications_app, LOG_VERBOSE_notifications.
    destruct (debug_mode g); reflexivity.
  - reflexivity.
Qed.

(** In debug mode the loop sends nothing to the supervisor. *)
Lemma monitor_loop_debug_silent path g w :
  debug_mode g = true ->
  forall fuel st, notifications (snd (monitor_loop fuel path g w st)) = [].
Proof.
  intros Hd fuel.
  induction fuel as [|fuel IH]; intros st; [reflexivity |].
  cbn [monitor_loop]. cbv zeta.
  destruct (running (deliver w st)); [| reflexivity].
  pose proof (loop_body_notifications path g w (deliver w st)) as Hb.
  destruct (loop_body path g w (deliver w st)) as [[res st2] t].
  specialize (IH st2).
  destruct (monitor_loop fuel path g w st2) as [ph t'].
  cbn [fst snd] in *.
  rewrite notifications_app, Hb, IH, Hd, andb_false_r. reflexivity.
Qed.

Lemma check_test_file_output path w :
  forallb is_output (snd (check_test_file path w)) = true.
Proof.
  unfold check_test_file. cbv zeta.
  destruct (stat_ret (stat w path) <? 0); [reflexivity |].
  destruct (negb (st_is_reg (stat w path))); [reflexivity |].
  destruct (st_size (stat w path) =? 0); reflexivity.
Qed.

(** C1.  In every iteration of the monitor loop (the test of [running]
    having passed), the heartbeat [WATCHDOG=1] is sent if and only if
    the probe of that iteration returned success and debug mode is off.
    After a failure no heartbeat is sent and the loop is still in state
    [Running], ready for its next test of [running].  In debug mode the
    whole run sends neither a heartbeat nor the ready notification. *)
Theorem heartbeat_iff_success_and_not_debug :
  forall (fuel : nat) (argv : list string) (path : string) (g : globals)
         (w : world) (st : loop_state),
    (running (deliver w st) = true ->
     exists res st' t,
       loop_body path g w (deliver w st) = (res, st', t)
       /\ res = fst (test_read path (probe w (round st)))
       /\ monitor_loop 1 path g w st = (Running st', t)
       /\ running st' = true
       /\ notifications t
          = (if (res =? 0) && negb (debug_mode g) then ["WATCHDOG=1"] else [])
       /\ (In (EvNotify "WATCHDOG=1") t <-> res = 0 /\ debug_mode g = false)
       /\ (res <> 0 -> notifications t = []))
    /\ (debug_mode (parsed_globals argv w) = true ->
        notifications (snd (main fuel argv w)) = []).
Proof.
  intros fuel argv path g w st. split.
  - intros Hrun.
    pose proof (loop_body_notifications path g w (deliver w st)) as Hn.
    destruct (loop_body_spec path g w (deliver w st)) as (tp & _ & Hb & _).
    assert (Hround : round (deliver w st) = round st)
      by (unfold deliver; destruct (signalled w (round st)); reflexivity).
    destruct (loop_body path g w (deliver w st)) as [[res st'] t] eqn:Eb.
    cbn [fst snd] in Hn.
    exists res, st', t.
    assert (Hres : res = fst (test_read path (probe w (round st))))
      by (rewrite <- Hround; congruence).
    assert (Hst : running st' = true)
      by (inversion Hb; subst st'; exact Hrun).
    split; [reflexivity |]. split; [exact Hres |].
    split; [cbn [monitor_loop]; cbv zeta; rewrite Hrun, Eb, app_nil_r; reflexivity |].
    split; [exact Hst |]. split; [exact Hn |]. split; [split |].
    + rewrite notifications_In, Hn.
      destruct (res =? 0) eqn:Er; destruct (debug_mode g); cbn [negb andb];
        intros H; simpl in H; try contradiction.
      apply Z.eqb_eq in Er. auto.
    + rewrite notifications_In, Hn. intros [Hr Hd].
      rewrite Hd. apply Z.eqb_eq in Hr. rewrite Hr. left. reflexivity.
    + intros Hne. rewrite Hn.
      destruct (res =? 0) eqn:Er; [apply Z.eqb_eq in Er; contradiction | reflexivity].
  - unfold parsed_globals, main.
    pose proof (parse_args_output argv w initial_globals) as Ho.
    destruct (parse_args argv w initial_globals) as [[r g0] t]. cbn [fst snd] in *.
    apply output_only_silent in Ho as (Hn & _).
    intros Hd.
    destruct r as [v|status]; [| exact Hn].
    destruct (v <? 0); [exact Hn |].
    destruct (test_file g0) as [p|]; [| exact Hn].
    pose proof (check_test_file_output p w) as Hc.
    apply output_only_silent in Hc as (Hc & _).
    destruct (check_test_file p w) as [c tc]. cbn [snd] in Hc.
    destruct (c <? 0).
    + cbn [snd]. rewrite !notifications_app, Hn, Hc. reflexivity.
    + pose proof (monitor_loop_debug_silent p g0 w Hd fuel initial_loop_state) as Hl.
      destruct (monitor_loop fuel p g0 w initial_loop_state) as [ph tl].
      cbn [snd] in Hl. rewrite Hd. cbn [negb].
      destruct ph; cbn [snd];
        rewrite !notifications_app, Hn, Hc, Hl, !LOG_VERBOSE_notifications;
        reflexivity.
Qed.

Lemma heartbeat_iff_success_and_not_debug_witness :
  (exists res st' t,
      loop_body "/mnt/data/probe" initial_globals flaky_world
        (deliver flaky_world initial_loop_state) = (res, st', t)
      /\ res = fst (test_read "/mnt/data/probe" (probe flaky_world 0))
      /\ monitor_loop 1 "/mnt/data/probe" initial_globals flaky_world initial_loop_state
         = (Running st', t)
      /\ running st' = true
      /\ notifications t
         = (if (res =? 0) && negb (debug_mode initial_globals) then ["WATCHDOG=1"] else [])
      /\ (In (EvNotify "WATCHDOG=1") t <-> res = 0 /\ debug_mode initial_globals = false)
      /\ (res <> 0 -> notifications t = []))
  /\ notifications
       (snd (main 4 ["disk-watchdogd"; "-d"; "-f"; "/mnt/data/probe"] flaky_world)) = [].
Proof.
  exact (conj
           (proj1 (heartbeat_iff_success_and_not_debug 4
                     ["disk-watchdogd"; "-d"; "-f"; "/mnt/data/probe"]
                     "/mnt/data/probe" initial_globals flaky_world initial_loop_state)
                  eq_refl)
           (proj2 (heartbeat_iff_success_and_not_debug 4
                     ["disk-watchdogd"; "-d"; "-f"; "/mnt/data/probe"]
                     "/mnt/data/probe" initial_globals flaky_world initial_loop_state)
                  eq_refl)).
Defined.

(** ** The interval *)

Lemma to_int_range z : INT_MIN <= to_int z <= INT_MAX.
Proof.
  unfold to_int, INT_MIN, INT_MAX.
  pose proof (Z.mod_pos_bound (z + 2 ^ 31) (2 ^ 32)). lia.
Qed.

Lemma to_int_small z : INT_MIN <= z <= INT_MAX -> to_int z = z.
Proof.
  unfold to_int, INT_MIN, INT_MAX. intros H.
  rewrite Z.mod_small by lia. lia.
Qed.

(** The interval [parse_args] leaves when the supervisor has a watchdog
    timeout and debug mode is off: half the timeout, stored in an
    [int]. *)
Lemma watchdog_interval_stored argv w g t :
  parse_args argv w initial_globals = (Returns 0, g, t) ->
  debug_mode g = false ->
  0 < sd_watchdog_enabled w ->
  interval_us g = to_int (sd_watchdog_usec w / 2).
Proof.
  intros Hp Hd He.
  destruct (parse_args_ok _ _ _ _ _ _ Hp) as [(g1 & t1 & path & _ & _ & _ & ->) | [H | H]];
    try discriminate.
  pose proof (watchdog_adjust_keeps w g1) as (Hk & _).
  rewrite Hk in Hd. unfold watchdog_adjust. rewrite Hd. cbn [negb]. cbv zeta.
  destruct (sd_watchdog_enabled w >? 0) eqn:E; [reflexivity |].
  rewrite Z.gtb_ltb in E. apply Z.ltb_ge in E. lia.
Qed.

(** X16.  Outside debug mode, when the supervisor reports a watchdog
    timeout below 2^32 microseconds, the interval is half the timeout,
    rounded down, whatever [--interval] said. *)
Lemma watchdog_interval_half argv w g t :
  parse_args argv w initial_globals = (Returns 0, g, t) ->
  debug_mode g = false ->
  0 < sd_watchdog_enabled w ->
  0 <= sd_watchdog_usec w < 2 ^ 32 ->
  interval_us g = sd_watchdog_usec w / 2.
Proof.
  intros Hp Hd He HT.
  rewrite (watchdog_interval_stored _ _ _ _ Hp Hd He).
  apply to_int_small. unfold INT_MIN, INT_MAX.
  pose proof (Z.div_pos (sd_watchdog_usec w) 2).
  assert (sd_watchdog_usec w / 2 < 2 ^ 31)
    by (apply Z.div_lt_upper_bound; lia).
  lia.
Qed.

(** From 2^32 microseconds on, half the timeout does not fit in the
    [int] that holds the interval. *)
Lemma watchdog_interval_out_of_range argv w g t :
  parse_args argv w initial_globals = (Returns 0, g, t) ->
  debug_mode g = false ->
  0 < sd_watchdog_enabled w ->
  2 ^ 32 <= sd_watchdog_usec w ->
  interval_us g <> sd_watchdog_usec w / 2.
Proof.
  intros Hp Hd He HT.
  rewrite (watchdog_interval_stored _ _ _ _ Hp Hd He).
  pose proof (to_int_range (sd_watchdog_usec w / 2)) as Hr.
  assert (2 ^ 31 <= sd_watchdog_usec w / 2)
    by (apply Z.div_le_lower_bound; lia).
  unfold INT_MAX in Hr. lia.
Qed.

(** C2, at the input that fails.  Debug mode is off and the supervisor
    reports a watchdog timeout of 2^33 microseconds (about 2 h 23 min):
    half of it is 4294967296, and the interval [parse_args] leaves is 0,
    so that the loop sleeps [usleep(0)] between probes. *)
Theorem watchdog_interval_truncated :
  0 <= 2 ^ 33 <= UINT64_MAX
  /\ debug_mode (parsed_globals ["disk-watchdogd"; "--file"; "/mnt/data/probe"]
                   (supervised_world (2 ^ 33))) = false
  /\ 2 ^ 33 / 2 = 4294967296
  /\ interval_us (parsed_globals ["disk-watchdogd"; "--file"; "/mnt/data/probe"]
                    (supervised_world (2 ^ 33))) = 0
  /\ fst (fst (parse_args ["disk-watchdogd"; "--file"; "/mnt/data/probe"]
                 (supervised_world (2 ^ 33)) initial_globals)) = Returns 0.
Proof.
  split; [unfold UINT64_MAX; lia |].
  repeat split; reflexivity.
Qed.

(** ** The argument of [--interval] *)

Lemma digit_not_space c : is_digit c = true -> isspace c = false.
Proof.
  destruct c as [[] [] [] [] [] [] [] []]; intros H;
    try reflexivity; vm_compute in H; discriminate.
Qed.

(** On a numeric string [strtol] reads the value the string denotes. *)
Lemma strtol_of_numeric s :
  is_numeric s = true ->
  strtol s = Z.max LONG_MIN (Z.min LONG_MAX (numeric_value s)).
Proof.
  destruct s as [|c rest]; [discriminate |].
  intros H. unfold strtol.
  destruct (Ascii.eqb c "-") eqn:Em.
  { apply Ascii.eqb_eq in Em. subst c. reflexivity. }
  destruct (Ascii.eqb c "+") eqn:Ep.
  { apply Ascii.eqb_eq in Ep. subst c. reflexivity. }
  assert (Hd : is_digit c = true).
  { unfold is_numeric in H.
    destruct c as [[] [] [] [] [] [] [] []];
      try discriminate; cbn [all_digits] in H;
      try (apply andb_true_iff in H as [H _]; exact H);
      destruct rest; cbn [all_digits] in H;
      try (apply andb_true_iff in H as [H _]; exact H); discriminate. }
  cbn [skip_spaces]. rewrite (digit_not_space c Hd).
  unfold numeric_value.
  destruct c as [[] [] [] [] [] [] [] []]; try discriminate; reflexivity.
Qed.

(** C6, as stated, fails: the argument [12abc] is not numeric, and the
    parser accepts it and sets the interval to 12000 microseconds. *)
Lemma interval_non_numeric_accepted :
  is_numeric "12abc" = false
  /\ numeric_positive "12abc" = false
  /\ interval_accepted "12abc" = true
  /\ parse_args ["disk-watchdogd"; "--file"; "/mnt/data/probe"; "--interval"; "12abc"]
       healthy_world initial_globals
     = (Returns 0,
        {| test_file := Some "/mnt/data/probe"; interval_us := 12000;
           verbose_mode := false; debug_mode := false |}, []).
Proof. repeat split; reflexivity. Qed.

(** C6, amended.  The parser reads the argument of [--interval] the way
    [atoi] does: white space, an optional sign, then the leading digits,
    the rest of the string being ignored and a string without leading
    digits counting as 0.  With [n] the integer so read and [n * 1000]
    in the range of [int]: when [n] is positive the argument is accepted
    and the interval becomes [n * 1000] microseconds; when [n] is zero
    or negative the parser reports the argument and returns -1, and the
    process exits with status 1.  On a numeric string [n] is the value
    the string denotes. *)
Theorem interval_argument_read_by_atoi :
  forall (prog : string) (w : world) (s : string) (rest : list getopt_ret)
         (g : globals) (n : nat),
    INT_MIN <= strtol s * 1000 <= INT_MAX ->
    (is_numeric s = true -> strtol s = numeric_value s)
    /\ (0 < strtol s ->
        parse_options prog w (("i"%char, s) :: rest) g n
        = parse_options prog w rest (set_interval_us g (strtol s * 1000)) n)
    /\ (strtol s <= 0 ->
        parse_options prog w (("i"%char, s) :: rest) g n
        = (Some (Returns (-1)), set_interval_us g (strtol s * 1000),
           [EvStderr (DiagInvalidInterval s)])
        /\ forall fuel argv pre post g1 t1,
            getopt_long (tl argv) = pre ++ ("i"%char, s) :: post ->
            parse_options (hd "" argv) w pre initial_globals 0 = (None, g1, t1) ->
            main fuel argv w = (Some 1, t1 ++ [EvStderr (DiagInvalidInterval s)])).
Proof.
  intros prog w s rest g n Hr.
  assert (Hatoi : to_int (atoi s * 1000) = strtol s * 1000).
  { unfold atoi. rewrite (to_int_small (strtol s)), to_int_small; [reflexivity | exact Hr |].
    unfold INT_MIN, INT_MAX in *. lia. }
  assert (Hstep : forall prog' rest' g' n',
             parse_options prog' w (("i"%char, s) :: rest') g' n'
             = if strtol s * 1000 <=? 0
               then (Some (Returns (-1)), set_interval_us g' (strtol s * 1000),
                     [EvStderr (DiagInvalidInterval s)])
               else parse_options prog' w rest' (set_interval_us g' (strtol s * 1000)) n').
  { intros. cbn [parse_options Ascii.eqb Bool.eqb]. cbv zeta.
    cbn [set_interval_us interval_us]. rewrite Hatoi. reflexivity. }
  split; [| split].
  - intros Hnum. rewrite strtol_of_numeric by exact Hnum.
    rewrite strtol_of_numeric in Hr by exact Hnum.
    unfold LONG_MIN, LONG_MAX, INT_MIN, INT_MAX in *. lia.
  - intros Hpos. rewrite Hstep.
    destruct (strtol s * 1000 <=? 0) eqn:E; [apply Z.leb_le in E; lia | reflexivity].
  - intros Hneg.
    assert (E : (strtol s * 1000 <=? 0) = true) by (apply Z.leb_le; lia).
    split; [rewrite Hstep, E; reflexivity |].
    intros fuel argv pre post g1 t1 Hopts Hpre.
    assert (Hp : parse_args argv w initial_globals
                 = (Returns (-1), set_interval_us g1 (strtol s * 1000),
                    t1 ++ [EvStderr (DiagInvalidInterval s)])).
    { unfold parse_args. rewrite Hopts, parse_options_app, Hpre, Hstep, E. reflexivity. }
    rewrite main_parse_error; rewrite Hp; reflexivity.
Qed.

Lemma interval_argument_read_by_atoi_witness :
  (INT_MIN <= strtol "250" * 1000 <= INT_MAX)
  /\ strtol "250" = numeric_value "250"
  /\ parse_options "disk-watchdogd" healthy_world
       [("i"%char, "250"); ("f"%char, "/mnt/data/probe")] initial_globals 0
     = parse_options "disk-watchdogd" healthy_world [("f"%char, "/mnt/data/probe")]
         (set_interval_us initial_globals (strtol "250" * 1000)) 0
  /\ main 3 ["disk-watchdogd"; "-v"; "-i"; "-5"; "-h"] healthy_world
     = (Some 1, [] ++ [EvStderr (DiagInvalidInterval "-5")]).
Proof.
  split; [vm_compute; split; discriminate |].
  split; [| split].
  - apply (interval_argument_read_by_atoi "disk-watchdogd" healthy_world "250"
             [("f"%char, "/mnt/data/probe")] initial_globals 0).
    + vm_compute; split; discriminate.
    + reflexivity.
  - apply (interval_argument_read_by_atoi "disk-watchdogd" healthy_world "250"
             [("f"%char, "/mnt/data/probe")] initial_globals 0).
    + vm_compute; split; discriminate.
    + vm_compute; reflexivity.
  - apply (proj2 (proj2 (interval_argument_read_by_atoi "disk-watchdogd" healthy_world
                           "-5" [] initial_globals 0
                           ltac:(vm_compute; split; discriminate)))
             ltac:(vm_compute; discriminate))
      with (pre := [("v"%char, "")]) (post := [("h"%char, "")]) (g1 := set_verbose initial_globals).
    + reflexivity.
    + reflexivity.
Defined.

(** ** The precondition checker *)

(** C7.  When the parser has returned 0 and the target path cannot be
    stat'ed, or is not a regular file, or is an empty file, the check
    returns -1 and the process exits with status 1 after the parser's
    output, the installation of the signal handlers, one line on the
    error stream and the release of the path: no iteration of the
    monitor loop, no probe, no notification to the supervisor, however
    long the run is observed. *)
Theorem bad_target_exits_before_loop :
  forall (fuel : nat) (argv : list string) (w : world) (g : globals) (t : trace)
         (path : string),
    parse_args argv w initial_globals = (Returns 0, g, t) ->
    test_file g = Some path ->
    stat_ret (stat w path) < 0
    \/ st_is_reg (stat w path) = false
    \/ st_size (stat w path) = 0 ->
    fst (check_test_file path w) = -1
    /\ fst (main fuel argv w) = Some 1
    /\ (exists d, snd (main fuel argv w)
                  = t ++ [EvInstallHandlers; EvStderr d; EvFreeTestFile])
    /\ iterations_run (snd (main fuel argv w)) = 0%nat
    /\ probe_calls (snd (main fuel argv w)) = 0%nat
    /\ notifications (snd (main fuel argv w)) = [].
Proof.
  intros fuel argv w g t path Hp Hf Hbad.
  assert (Hc : exists d, check_test_file path w = (-1, [EvStderr d])).
  { unfold check_test_file. cbv zeta.
    destruct (stat_ret (stat w path) <? 0) eqn:E1; [eauto |].
    destruct (st_is_reg (stat w path)) eqn:E2; cbn [negb]; [| eauto].
    destruct (st_size (stat w path) =? 0) eqn:E3; [eauto |].
    apply Z.ltb_ge in E1. apply Z.eqb_neq in E3.
    destruct Hbad as [H | [H | H]]; [lia | discriminate | contradiction]. }
  destruct Hc as (d & Hc).
  assert (Hm : main fuel argv w
               = (Some 1, t ++ [EvInstallHandlers; EvStderr d; EvFreeTestFile])).
  { unfold main. rewrite Hp, Hf, Hc. cbn [Z.ltb Z.compare].
    rewrite <- !app_assoc. reflexivity. }
  pose proof (parse_args_output argv w initial_globals) as Ho.
  rewrite Hp in Ho. cbn [snd] in Ho.
  assert (Hall : forallb is_output (t ++ [EvStderr d]) = true)
    by (rewrite forallb_output_app, Ho; reflexivity).
  apply output_only_silent in Ho as (Hn & Hpc & Hit & _).
  rewrite Hm, Hc. cbn [fst snd].
  unfold iterations_run, probe_calls in *.
  rewrite !count_events_app, !notifications_app, Hn, Hpc, Hit.
  repeat split; try reflexivity. exists d. reflexivity.
Qed.

Lemma bad_target_exits_before_loop_witness :
  fst (check_test_file "/mnt/data/probe" missing_file_world) = -1
  /\ fst (main 7 ["disk-watchdogd"; "-f"; "/mnt/data/probe"] missing_file_world) = Some 1
  /\ (exists d, snd (main 7 ["disk-watchdogd"; "-f"; "/mnt/data/probe"] missing_file_world)
                = [] ++ [EvInstallHandlers; EvStderr d; EvFreeTestFile])
  /\ iterations_run
       (snd (main 7 ["disk-watchdogd"; "-f"; "/mnt/data/probe"] missing_file_world)) = 0%nat
  /\ probe_calls
       (snd (main 7 ["disk-watchdogd"; "-f"; "/mnt/data/probe"] missing_file_world)) = 0%nat
  /\ notifications
       (snd (main 7 ["disk-watchdogd"; "-f"; "/mnt/data/probe"] missing_file_world)) = [].
Proof.
  apply (bad_target_exits_before_loop 7 ["disk-watchdogd"; "-f"; "/mnt/data/probe"]
           missing_file_world
           {| test_file := Some "/mnt/data/probe"; interval_us := DEFAULT_INTERVAL;
              verbose_mode := false; debug_mode := false |}
           [] "/mnt/data/probe").
  - reflexivity.
  - reflexivity.
  - left. simpl. lia.
Defined.

(** ** [--help] *)

(** C9, as stated, fails: this argument list contains [-h], and the
    process exits with status 1 on the invalid interval that comes
    before it, without printing the usage text. *)
Lemma help_after_invalid_interval_exits_1 :
  In "-h" ["disk-watchdogd"; "-i"; "0"; "-h"]
  /\ main 3 ["disk-watchdogd"; "-i"; "0"; "-h"] healthy_world
     = (Some 1, [EvStderr (DiagInvalidInterval "0")]).
Proof. split; [simpl; auto | reflexivity]. Qed.

(** C9, amended.  When [getopt_long] comes to a [--help] or [-h] option
    and the options before it were processed without a return, the
    program prints the usage text and exits with status 0 at once:
    the options after it are not looked at, [--file] is not asked for,
    the supervisor is not queried and nothing else happens. *)
Theorem help_exits_0_when_reached :
  forall (fuel : nat) (argv : list string) (w : world)
         (pre post : list getopt_ret) (optarg : string) (g1 : globals) (t1 : trace),
    getopt_long (tl argv) = pre ++ ("h"%char, optarg) :: post ->
    parse_options (hd "" argv) w pre initial_globals 0 = (None, g1, t1) ->
    parse_args argv w initial_globals = (Exits 0, g1, t1 ++ print_usage (hd "" argv))
    /\ main fuel argv w = (Some 0, t1 ++ [EvStdout (LogUsage (hd "" argv))]).
Proof.
  intros fuel argv w pre post optarg g1 t1 Hopts Hpre.
  assert (Hp : parse_args argv w initial_globals
               = (Exits 0, g1, t1 ++ print_usage (hd "" argv))).
  { unfold parse_args. rewrite Hopts, parse_options_app, Hpre. reflexivity. }
  split; [exact Hp |].
  rewrite (main_parse_exit fuel argv w 0); rewrite Hp; reflexivity.
Qed.

Lemma help_exits_0_when_reached_witness :
  parse_args ["disk-watchdogd"; "-v"; "--help"; "-i"; "0"] healthy_world initial_globals
  = (Exits 0, set_verbose initial_globals, [] ++ print_usage "disk-watchdogd")
  /\ main 3 ["disk-watchdogd"; "-v"; "--help"; "-i"; "0"] healthy_world
     = (Some 0, [] ++ [EvStdout (LogUsage "disk-watchdogd")]).
Proof.
  apply (help_exits_0_when_reached 3 ["disk-watchdogd"; "-v"; "--help"; "-i"; "0"]
           healthy_world [("v"%char, "")] [("i"%char, "0")] "").
  - reflexivity.
  - reflexivity.
Defined.

(** * Further properties *)

(** ** More on the prober *)

Lemma count_events_nil p : count_events p [] = 0%nat.
Proof. reflexivity. Qed.

(** Splits a count over a trace into the counts of its pieces. *)
Ltac count_trace :=
  repeat first [ rewrite count_events_cons
               | rewrite count_events_app
               | rewrite count_events_nil ].

(** A run of full blocks at the head of the loop. *)
Lemma read_loop_full_prefix w fd a :
  forall n b k,
    (forall j, (k <= j < k + n)%nat -> read_ret w j = BUFFER_SIZE) ->
    b + BUFFER_SIZE * Z.of_nat n <= a ->
    read_loop w fd a b k =
    (fst (fst (read_loop w fd a (b + BUFFER_SIZE * Z.of_nat n) (k + n))),
     snd (fst (read_loop w fd a (b + BUFFER_SIZE * Z.of_nat n) (k + n))),
     repeat (EvRead fd BUFFER_SIZE) n
     ++ snd (read_loop w fd a (b + BUFFER_SIZE * Z.of_nat n) (k + n))).
Proof.
  induction n as [|n IH]; intros b k Hfull Hle.
  - replace (b + BUFFER_SIZE * Z.of_nat 0) with b by lia.
    rewrite Nat.add_0_r.
    destruct (read_loop w fd a b k) as [[r b'] t]. reflexivity.
  - rewrite read_loop_eq.
    assert (Hlt : (b <? a) = true) by (apply Z.ltb_lt; unfold BUFFER_SIZE in *; lia).
    rewrite Hlt, (Hfull k) by lia.
    cbn -[Z.of_nat read_loop Z.mul Z.add repeat].
    rewrite (IH (b + BUFFER_SIZE) (S k)).
    + replace (b + BUFFER_SIZE + BUFFER_SIZE * Z.of_nat n)
        with (b + BUFFER_SIZE * Z.of_nat (S n)) by lia.
      replace (S k + n)%nat with (k + S n)%nat by lia.
      reflexivity.
    + intros j Hj. apply Hfull. lia.
    + lia.
Qed.

(** The loop never makes more [read] calls than there are blocks left. *)
Lemma read_loop_calls_bounded w fd :
  forall m b k,
    (read_calls (snd (read_loop w fd (b + BUFFER_SIZE * Z.of_nat m) b k)) <= m)%nat.
Proof.
  induction m as [|m IH]; intros b k; rewrite read_loop_eq.
  - replace (b + BUFFER_SIZE * Z.of_nat 0) with b by lia.
    rewrite Z.ltb_irrefl. cbn. lia.
  - destruct (b <? b + BUFFER_SIZE * Z.of_nat (S m)); [| cbn; lia].
    destruct (read_ret w k <? 0); [cbn; lia |].
    destruct (read_ret w k =? 0); [cbn; lia |].
    destruct (read_ret w k =? BUFFER_SIZE) eqn:E; cbn [negb]; [| cbn; lia].
    apply Z.eqb_eq in E. rewrite E.
    replace (b + BUFFER_SIZE * Z.of_nat (S m))
      with (b + BUFFER_SIZE + BUFFER_SIZE * Z.of_nat m) by lia.
    specialize (IH (b + BUFFER_SIZE) (S k)).
    destruct (read_loop _ _ _ _ _) as [[r b'] t]. cbn [snd] in *.
    unfold read_calls in *. rewrite count_events_cons. cbn [is_read]. lia.
Qed.

(** Forgets the equations between the scrutinees of [read_loop] that
    [funelim] leaves behind, which tie the tests to their proofs. *)
Ltac forget_inspect :=
  repeat match goal with
         | H : {| pr1 := _; pr2 := _ |} = _ |- _ => clear H
         end.

(** Turns the boolean tests on integers among the hypotheses into
    propositions. *)
Ltac Z_tests :=
  repeat match goal with
         | E : (_ <? _) = true |- _ => apply Z.ltb_lt in E
         | E : (_ <? _) = false |- _ => apply Z.ltb_ge in E
         | E : (_ =? _) = true |- _ => apply Z.eqb_eq in E
         | E : (_ =? _) = false |- _ => apply Z.eqb_neq in E
         | E : negb _ = true |- _ => apply negb_true_iff in E
         | E : negb _ = false |- _ => apply negb_false_iff in E
         end.

(** A loop that returns from [test_read] has seen full blocks and then
    one [read] that was not a full block, which decides the code. *)
Lemma read_loop_some w fd a b k :
  forall code, fst (fst (read_loop w fd a b k)) = Some code ->
  exists n,
    read_calls (snd (read_loop w fd a b k)) = S n
    /\ (forall j, (k <= j < k + n)%nat -> read_ret w j = BUFFER_SIZE)
    /\ read_ret w (k + n) <> BUFFER_SIZE
    /\ code = short_read_code (read_ret w (k + n)).
Proof.
  funelim (read_loop w fd a b k); forget_inspect; intros code Hc;
    cbn [fst snd] in Hc; [discriminate | | | |].
  1-3: inversion Hc; subst code; exists 0%nat; rewrite Nat.add_0_r;
    unfold short_read_code;
    repeat match goal with
           | E : ?c = true |- context [?c] => rewrite E
           | E : ?c = false |- context [?c] => rewrite E
           end;
    Z_tests;
    unfold BUFFER_SIZE in *;
    (repeat split; try reflexivity; try intros j Hj; lia).
  - pose proof (proj1 (negb_false_iff _) Hfull) as Hf. apply Z.eqb_eq in Hf.
    destruct (read_loop _ _ _ _ _) as [[r b0] t0]. cbn [fst snd] in *.
    destruct (H code Hc) as (n & Hn & Hall & Hbad & Hcode).
    exists (S n). replace (k + S n)%nat with (S k + n)%nat by lia.
    unfold read_calls in *. rewrite count_events_cons. cbn [is_read].
    repeat split; try assumption; [lia |].
    intros j Hj. destruct (Nat.eq_dec j k) as [-> | Hne]; [exact Hf |].
    apply Hall. lia.
Qed.

(** X1.  Whatever the system answers, a probe makes at most
    [floor(size / 512)] calls of [read], none when the size seek
    failed, each asking for 512 bytes: the number of bytes it asks for
    in all never exceeds the aligned size, nor the size.  (The bound is
    on the amount asked for; where in the file a read lands depends on
    the file position, which the seek back to the start is trusted to
    reset.) *)
Theorem probe_reads_bounded :
  forall (path : string) (w : probe_world),
    (read_calls (snd (test_read path w))
     <= Z.to_nat (lseek_end_ret w / BUFFER_SIZE))%nat
    /\ bytes_requested (snd (test_read path w))
       <= Z.max 0 (aligned_size (lseek_end_ret w))
    /\ bytes_requested (snd (test_read path w)) <= Z.max 0 (lseek_end_ret w).
Proof.
  intros path w.
  assert (H : (read_calls (snd (test_read path w))
               <= Z.to_nat (lseek_end_ret w / BUFFER_SIZE))%nat).
  { unfold test_read.
    destruct (negb (memalign_ret w =? 0)); [cbn; lia |].
    cbv zeta.
    destruct (open_ret w <? 0); [cbn; lia |].
    destruct (lseek_end_ret w <? 0) eqn:Es; [cbn; lia |].
    apply Z.ltb_ge in Es.
    rewrite aligned_size_floor by exact Es.
    pose proof (read_loop_calls_bounded w (open_ret w)
                  (Z.to_nat (lseek_end_ret w / BUFFER_SIZE)) 0 0) as Hb.
    rewrite Z2Nat.id in Hb by (apply Z.div_pos; unfold BUFFER_SIZE; lia).
    replace (0 + BUFFER_SIZE * (lseek_end_ret w / BUFFER_SIZE))
      with (lseek_end_ret w / BUFFER_SIZE * BUFFER_SIZE) in Hb by lia.
    unfold read_calls in *.
    destruct (read_loop _ _ _ _ _) as [[[code|] b'] tl]; cbn [snd] in *;
      [| destruct (close_ret w <? 0)]; cbn [snd app];
      count_trace; cbn [is_read]; lia. }
  unfold bytes_requested.
  split; [exact H |].
  destruct (Z.le_gt_cases 0 (lseek_end_ret w)) as [Hs | Hs].
  - rewrite aligned_size_floor by exact Hs.
    pose proof (Z.mul_div_le (lseek_end_ret w) BUFFER_SIZE) as Hm.
    assert (Z.of_nat (read_calls (snd (test_read path w)))
            <= lseek_end_ret w / BUFFER_SIZE).
    { apply Nat2Z.inj_le in H. rewrite Z2Nat.id in H; [exact H |].
      apply Z.div_pos; unfold BUFFER_SIZE; lia. }
    unfold BUFFER_SIZE in *. lia.
  - assert (Hz : Z.to_nat (lseek_end_ret w / BUFFER_SIZE) = 0%nat).
    { assert (lseek_end_ret w / BUFFER_SIZE < 0); [| lia].
      apply Z.div_lt_upper_bound; unfold BUFFER_SIZE; lia. }
    rewrite Hz in H. unfold BUFFER_SIZE. lia.
Qed.

(** X2.  When the first [k] reads deliver full blocks and the next one,
    still inside the aligned size, does not, the probe stops there: it
    returns 4 for a negative result, 5 for an end of file and 6 for a
    partial block, reports the offset [512 * k] of that block, has made
    [k + 1] reads, and closes the descriptor and frees the buffer. *)
Theorem first_short_read_reported :
  forall (path : string) (w : probe_world) (k : nat),
    memalign_ret w = 0 ->
    0 <= open_ret w ->
    (forall j, (j < k)%nat -> read_ret w j = BUFFER_SIZE) ->
    read_ret w k <> BUFFER_SIZE ->
    BUFFER_SIZE * (Z.of_nat k + 1) <= lseek_end_ret w ->
    test_read path w =
    (short_read_code (read_ret w k),
     [EvMemalign 0; EvMemset; EvOpen path (open_ret w);
      EvLseek (open_ret w) SEEK_END (lseek_end_ret w);
      EvLseek (open_ret w) SEEK_SET (lseek_set_ret w)]
     ++ repeat (EvRead (open_ret w) BUFFER_SIZE) k
     ++ [EvRead (open_ret w) (read_ret w k);
         EvStderr (short_read_diag (BUFFER_SIZE * Z.of_nat k) (read_ret w k));
         EvClose (open_ret w) (close_ret w); EvFree]).
Proof.
  intros path w k Hm Ho Hfull Hbad Hin.
  assert (Hs : 0 <= lseek_end_ret w) by (unfold BUFFER_SIZE in *; lia).
  rewrite test_read_opened by assumption. cbv zeta.
  assert (Ha : BUFFER_SIZE * (Z.of_nat k + 1) <= aligned_size (lseek_end_ret w)).
  { rewrite aligned_size_floor by exact Hs.
    assert (Z.of_nat k + 1 <= lseek_end_ret w / BUFFER_SIZE)
      by (apply Z.div_le_lower_bound; unfold BUFFER_SIZE in *; lia).
    unfold BUFFER_SIZE in *. lia. }
  rewrite (read_loop_full_prefix w (open_ret w) (aligned_size (lseek_end_ret w)) k 0 0)
    by (try (intros j Hj; apply Hfull); unfold BUFFER_SIZE in *; lia).
  rewrite (read_loop_eq w (open_ret w) (aligned_size (lseek_end_ret w))
             (0 + BUFFER_SIZE * Z.of_nat k) (0 + k)).
  assert (Hlt : (0 + BUFFER_SIZE * Z.of_nat k <? aligned_size (lseek_end_ret w)) = true)
    by (apply Z.ltb_lt; unfold BUFFER_SIZE in *; lia).
  rewrite Hlt. cbn [Nat.add].
  unfold short_read_code, short_read_diag. rewrite Z.add_0_l.
  destruct (read_ret w k <? 0); [reflexivity |].
  destruct (read_ret w k =? 0); [reflexivity |].
  destruct (read_ret w k =? BUFFER_SIZE) eqn:E;
    [apply Z.eqb_eq in E; contradiction | reflexivity].
Qed.

Lemma first_short_read_reported_witness :
  test_read "/mnt/data/probe" short_third_read =
  (short_read_code (read_ret short_third_read 2),
   [EvMemalign 0; EvMemset; EvOpen "/mnt/data/probe" (open_ret short_third_read);
    EvLseek (open_ret short_third_read) SEEK_END (lseek_end_ret short_third_read);
    EvLseek (open_ret short_third_read) SEEK_SET (lseek_set_ret short_third_read)]
   ++ repeat (EvRead (open_ret short_third_read) BUFFER_SIZE) 2
   ++ [EvRead (open_ret short_third_read) (read_ret short_third_read 2);
       EvStderr (short_read_diag (BUFFER_SIZE * Z.of_nat 2)
                   (read_ret short_third_read 2));
       EvClose (open_ret short_third_read) (close_ret short_third_read); EvFree]).
Proof.
  apply (first_short_read_reported "/mnt/data/probe" short_third_read 2).
  - reflexivity.
  - simpl; lia.
  - intros j Hj. destruct j as [|[|j]]; [reflexivity | reflexivity | lia].
  - vm_compute; discriminate.
  - vm_compute; discriminate.
Defined.

(** X3.  When every step up to the last read succeeds and [close] fails,
    the probe returns 7 although all the blocks were read, and it still
    frees the buffer. *)
Theorem close_failure_after_full_read :
  forall (path : string) (w : probe_world),
    memalign_ret w = 0 ->
    0 <= open_ret w ->
    0 <= lseek_end_ret w ->
    (forall k, read_ret w k = BUFFER_SIZE) ->
    close_ret w < 0 ->
    test_read path w =
    (7, [EvMemalign 0; EvMemset; EvOpen path (open_ret w);
         EvLseek (open_ret w) SEEK_END (lseek_end_ret w);
         EvLseek (open_ret w) SEEK_SET (lseek_set_ret w)]
        ++ repeat (EvRead (open_ret w) BUFFER_SIZE)
                  (Z.to_nat (lseek_end_ret w / BUFFER_SIZE))
        ++ [EvClose (open_ret w) (close_ret w); EvStderr DiagCloseFailed; EvFree])
    /\ bytes_delivered (snd (test_read path w))
       = lseek_end_ret w / BUFFER_SIZE * BUFFER_SIZE.
Proof.
  intros path w Hm Ho Hs Hfull Hc.
  assert (Ht : test_read path w =
               (7, [EvMemalign 0; EvMemset; EvOpen path (open_ret w);
                    EvLseek (open_ret w) SEEK_END (lseek_end_ret w);
                    EvLseek (open_ret w) SEEK_SET (lseek_set_ret w)]
                   ++ repeat (EvRead (open_ret w) BUFFER_SIZE)
                             (Z.to_nat (lseek_end_ret w / BUFFER_SIZE))
                   ++ [EvClose (open_ret w) (close_ret w); EvStderr DiagCloseFailed;
                       EvFree])).
  { rewrite test_read_opened by assumption. cbv zeta.
    rewrite aligned_size_floor by assumption.
    set (n := Z.to_nat (lseek_end_ret w / BUFFER_SIZE)).
    assert (Hn : lseek_end_ret w / BUFFER_SIZE * BUFFER_SIZE
                 = 0 + BUFFER_SIZE * Z.of_nat n).
    { subst n. rewrite Z2Nat.id; [lia |].
      apply Z.div_pos; unfold BUFFER_SIZE; lia. }
    rewrite Hn, read_loop_full_blocks by assumption.
    destruct (close_ret w <? 0) eqn:E; [reflexivity | apply Z.ltb_ge in E; lia]. }
  split; [exact Ht |].
  rewrite Ht. cbn [snd].
  rewrite !bytes_delivered_app, bytes_delivered_repeat.
  rewrite Z2Nat.id by (apply Z.div_pos; unfold BUFFER_SIZE; lia).
  unfold bytes_delivered; cbn [map fold_right]. lia.
Qed.

Lemma close_failure_after_full_read_witness :
  test_read "/mnt/data/probe" close_fails =
  (7, [EvMemalign 0; EvMemset; EvOpen "/mnt/data/probe" (open_ret close_fails);
       EvLseek (open_ret close_fails) SEEK_END (lseek_end_ret close_fails);
       EvLseek (open_ret close_fails) SEEK_SET (lseek_set_ret close_fails)]
      ++ repeat (EvRead (open_ret close_fails) BUFFER_SIZE)
                (Z.to_nat (lseek_end_ret close_fails / BUFFER_SIZE))
      ++ [EvClose (open_ret close_fails) (close_ret close_fails);
          EvStderr DiagCloseFailed; EvFree])
  /\ bytes_delivered (snd (test_read "/mnt/data/probe" close_fails))
     = lseek_end_ret close_fails / BUFFER_SIZE * BUFFER_SIZE.
Proof.
  apply (close_failure_after_full_read "/mnt/data/probe" close_fails).
  - reflexivity.
  - simpl; lia.
  - simpl; lia.
  - intros k; reflexivity.
  - simpl; lia.
Defined.

(** X4.  What each code of the probe tells.  1: the allocation failed.
    2: the allocation succeeded and the open failed.  3: both succeeded
    and the size seek failed.  4, 5, 6: the three succeeded, some reads
    delivered full blocks and the last read made did not (negative,
    zero, or another length).  7: every read made delivered a full block
    and [close] failed.  For 1, 2 and 3 the converse holds as well. *)
Theorem test_read_code_meaning :
  forall (path : string) (w : probe_world),
    let c := fst (test_read path w) in
    let n := read_calls (snd (test_read path w)) in
    (c = 1 <-> memalign_ret w <> 0)
    /\ (c = 2 <-> memalign_ret w = 0 /\ open_ret w < 0)
    /\ (c = 3 <-> memalign_ret w = 0 /\ 0 <= open_ret w /\ lseek_end_ret w < 0)
    /\ (4 <= c <= 6 ->
        exists k, n = S k
                  /\ (forall j, (j < k)%nat -> read_ret w j = BUFFER_SIZE)
                  /\ read_ret w k <> BUFFER_SIZE
                  /\ c = short_read_code (read_ret w k))
    /\ (c = 7 ->
        close_ret w < 0
        /\ forall j, (j < n)%nat -> read_ret w j = BUFFER_SIZE).
Proof.
  intros path w. cbv zeta. unfold test_read.
  destruct (memalign_ret w =? 0) eqn:Em; cbn [negb]; Z_tests.
  2:{ cbn [fst snd]. repeat split; intros; try lia; try discriminate. }
  cbv zeta.
  destruct (open_ret w <? 0) eqn:Eo; Z_tests.
  { cbn [fst snd]. repeat split; intros; try lia; try discriminate. }
  destruct (lseek_end_ret w <? 0) eqn:Es; Z_tests.
  { cbn [fst snd]. repeat split; intros; try lia; try discriminate. }
  pose proof (read_loop_some w (open_ret w) (aligned_size (lseek_end_ret w)) 0 0) as Hsome.
  pose proof (read_loop_none_full w (open_ret w) (aligned_size (lseek_end_ret w)) 0 0)
    as Hnone.
  pose proof (read_loop_codes w (open_ret w) (aligned_size (lseek_end_ret w)) 0 0) as Hcodes.
  unfold read_calls in *.
  destruct (read_loop _ _ _ _ _) as [[[code|] b'] tl]; cbn [fst snd] in *.
  - specialize (Hcodes code b' tl eq_refl).
    destruct (Hsome code eq_refl) as (k & Hk & Hall & Hbad & Hcode).
    cbn [app]. count_trace. cbn [is_read]. cbn [Nat.add].
    repeat split; intros; try lia.
    + exists k. repeat split; try assumption. intros j Hj. apply Hall. lia.
  - destruct (close_ret w <? 0) eqn:Ec; Z_tests; cbn [fst snd app];
      count_trace; cbn [is_read];
      repeat split; intros; try lia; try discriminate.
    apply Hnone; [reflexivity | lia].
Qed.

Lemma test_read_success_steps_witness :
  memalign_ret (healthy_probe 1300) = 0 /\ 0 <= open_ret (healthy_probe 1300)
  /\ 0 <= lseek_end_ret (healthy_probe 1300)
  /\ (forall j, (j < read_calls (snd (test_read "/mnt/data/probe" (healthy_probe 1300))))%nat ->
                read_ret (healthy_probe 1300) j = BUFFER_SIZE)
  /\ 0 <= close_ret (healthy_probe 1300).
Proof.
  apply (test_read_success_steps "/mnt/data/probe" (healthy_probe 1300)).
  reflexivity.
Defined.

Lemma seek_end_failure_witness :
  test_read "/mnt/data/probe" seek_end_fails =
  (3, [EvMemalign 0; EvMemset; EvOpen "/mnt/data/probe" (open_ret seek_end_fails);
       EvLseek (open_ret seek_end_fails) SEEK_END (lseek_end_ret seek_end_fails);
       EvStderr DiagLseekFailed;
       EvClose (open_ret seek_end_fails) (close_ret seek_end_fails); EvFree]).
Proof.
  apply (seek_end_failure "/mnt/data/probe" seek_end_fails).
  - reflexivity.
  - simpl; lia.
  - simpl; lia.
Defined.

Lemma test_read_code_meaning_witness :
  exists k,
    read_calls (snd (test_read "/mnt/data/probe" short_third_read)) = S k
    /\ (forall j, (j < k)%nat -> read_ret short_third_read j = BUFFER_SIZE)
    /\ read_ret short_third_read k <> BUFFER_SIZE
    /\ fst (test_read "/mnt/data/probe" short_third_read)
       = short_read_code (read_ret short_third_read k).
Proof.
  apply (proj1 (proj2 (proj2 (proj2
           (test_read_code_meaning "/mnt/data/probe" short_third_read))))).
  vm_compute. split; discriminate.
Defined.

(** ** More on the parser *)

(** Options that are processed without a return write nothing. *)
Lemma parse_options_continue_silent prog w opts :
  forall g n g1 t1, parse_options prog w opts g n = (None, g1, t1) -> t1 = [].
Proof.
  induction opts as [|[opt optarg] rest IH]; intros g n g1 t1 H; simpl in H.
  - inversion H. reflexivity.
  - destruct (Ascii.eqb opt "f").
    { destruct (strdup_ok w n); [eauto | discriminate]. }
    destruct (Ascii.eqb opt "i").
    { destruct (to_int (atoi optarg * 1000) <=? 0); [discriminate | eauto]. }
    destruct (Ascii.eqb opt "v"); [eauto |].
    destruct (Ascii.eqb opt "d"); [eauto |].
    destruct (Ascii.eqb opt "h"); discriminate.
Qed.

(** Options other than [--file] leave [test_file] alone. *)
Lemma parse_options_keeps_file prog w opts :
  forall g n g1 t1,
    parse_options prog w opts g n = (None, g1, t1) ->
    strdup_calls opts = 0%nat ->
    test_file g1 = test_file g.
Proof.
  induction opts as [|[opt optarg] rest IH]; intros g n g1 t1 H Hn; simpl in H.
  - inversion H. reflexivity.
  - unfold strdup_calls in Hn. cbn [filter fst] in Hn.
    destruct (Ascii.eqb opt "f"); [discriminate |].
    fold (strdup_calls rest) in Hn.
    destruct (Ascii.eqb opt "i").
    { destruct (to_int (atoi optarg * 1000) <=? 0); [discriminate |].
      rewrite (IH _ _ _ _ H Hn). reflexivity. }
    destruct (Ascii.eqb opt "v"); [rewrite (IH _ _ _ _ H Hn); reflexivity |].
    destruct (Ascii.eqb opt "d"); [rewrite (IH _ _ _ _ H Hn); reflexivity |].
    destruct (Ascii.eqb opt "h"); discriminate.
Qed.

(** The flags go one way, and debug mode comes with verbose mode. *)
Lemma parse_options_flags prog w opts :
  forall g n r g1 t1,
    parse_options prog w opts g n = (r, g1, t1) ->
    (debug_mode g = true -> verbose_mode g = true) ->
    (debug_mode g1 = true -> verbose_mode g1 = true).
Proof.
  induction opts as [|[opt optarg] rest IH]; intros g n r g1 t1 H Hg; simpl in H.
  - inversion H; subst. exact Hg.
  - destruct (Ascii.eqb opt "f").
    { destruct (strdup_ok w n); [exact (IH _ _ _ _ _ H Hg) | inversion H; subst; exact Hg]. }
    destruct (Ascii.eqb opt "i").
    { destruct (to_int (atoi optarg * 1000) <=? 0);
        [inversion H; subst; exact Hg | exact (IH _ _ _ _ _ H Hg)]. }
    destruct (Ascii.eqb opt "v"); [exact (IH _ _ _ _ _ H (fun _ => eq_refl)) |].
    destruct (Ascii.eqb opt "d"); [exact (IH _ _ _ _ _ H (fun _ => eq_refl)) |].
    destruct (Ascii.eqb opt "h"); inversion H; subst; exact Hg.
Qed.


(** X10.  After [parse_args], whatever the arguments and however it ends,
    debug mode is never on without verbose mode. *)
Theorem debug_implies_verbose :
  forall (argv : list string) (w : world) (c : completion) (g : globals) (t : trace),
    parse_args argv w initial_globals = (c, g, t) ->
    debug_mode g = true ->
    verbose_mode g = true.
Proof.
  intros argv w c g t H Hd. unfold parse_args in H.
  destruct (parse_options (hd "" argv) w (getopt_long (tl argv)) initial_globals 0)
    as [[r g1] t1] eqn:E.
  pose proof (parse_options_flags _ _ _ _ _ _ _ _ E) as Hf.
  cbn [initial_globals debug_mode] in Hf.
  assert (Hg1 : debug_mode g1 = true -> verbose_mode g1 = true)
    by (apply Hf; discriminate).
  destruct r as [c1|].
  - inversion H; subst. auto.
  - destruct (test_file g1).
    + pose proof (watchdog_adjust_keeps w g1) as (Hk1 & _ & Hk3).
      destruct (watchdog_adjust w g1) as [g2 t2]. cbn [fst] in *.
      inversion H; subst. rewrite Hk3. apply Hg1. rewrite <- Hk1. exact Hd.
    + inversion H; subst. auto.
Qed.

Lemma debug_implies_verbose_witness :
  verbose_mode (parsed_globals ["disk-watchdogd"; "--debug"; "-f"; "/mnt/data/probe"]
                  healthy_world) = true.
Proof.
  apply (debug_implies_verbose ["disk-watchdogd"; "--debug"; "-f"; "/mnt/data/probe"]
           healthy_world (Returns 0)
           (parsed_globals ["disk-watchdogd"; "--debug"; "-f"; "/mnt/data/probe"]
              healthy_world)
           [EvStdout LogConfiguration; EvStdout (LogTestFile "/mnt/data/probe");
            EvStdout (LogInterval 10); EvStdout LogDebugOn]).
  - reflexivity.
  - reflexivity.
Defined.

(** X11.  Without a [--file] or [-f] option the daemon never monitors:
    the parser does not return 0, the process ends with status 1 (or 0
    when a help option is reached) without a probe, a sleep or a
    notification; and when the options are processed to their end, all
    it writes is the complaint about the missing path and the usage
    text. *)
Theorem no_file_option_never_monitors :
  forall (fuel : nat) (argv : list string) (w : world),
    strdup_calls (getopt_long (tl argv)) = 0%nat ->
    fst (fst (parse_args argv w initial_globals)) <> Returns 0
    /\ (fst (main fuel argv w) = Some 1 \/ fst (main fuel argv w) = Some 0)
    /\ probe_calls (snd (main fuel argv w)) = 0%nat
    /\ iterations_run (snd (main fuel argv w)) = 0%nat
    /\ notifications (snd (main fuel argv w)) = []
    /\ (forall g1 t1,
           parse_options (hd "" argv) w (getopt_long (tl argv)) initial_globals 0
           = (None, g1, t1) ->
           main fuel argv w
           = (Some 1, [EvStderr DiagFileRequired; EvStdout (LogUsage (hd "" argv))])).
Proof.
  intros fuel argv w Hn.
  pose proof (parse_args_output argv w initial_globals) as Ho.
  apply output_only_silent in Ho as (Hno & Hpc & Hit & _).
  destruct (parse_args argv w initial_globals) as [[c g] t] eqn:Ep.
  cbn [fst snd] in *.
  assert (Hc : c = Exits 0 \/ c = Returns (-1)).
  { destruct (parse_args_ok _ _ _ _ _ _ Ep)
      as [(g1 & t1 & path & Hopts & Hf & _ & _) | H]; [| exact H].
    rewrite (parse_options_keeps_file _ _ _ _ _ _ _ Hopts Hn) in Hf. discriminate. }
  assert (Hm : main fuel argv w
               = (Some (match c with Exits s => s | Returns _ => 1 end), t)).
  { destruct Hc as [-> | ->].
    - rewrite (main_parse_exit fuel argv w 0); rewrite Ep; reflexivity.
    - rewrite main_parse_error; rewrite Ep; reflexivity. }
  rewrite Hm. cbn [fst snd].
  split; [destruct Hc as [-> | ->]; discriminate |].
  split; [destruct Hc as [-> | ->]; auto |].
  repeat split; try assumption.
  intros g1 t1 Hopts.
  pose proof (parse_options_continue_silent _ _ _ _ _ _ _ Hopts) as ->.
  pose proof (parse_options_keeps_file _ _ _ _ _ _ _ Hopts Hn) as Hf.
  cbn [initial_globals test_file] in Hf.
  unfold parse_args in Ep. rewrite Hopts, Hf in Ep.
  inversion Ep; subst. reflexivity.
Qed.

Lemma no_file_option_never_monitors_witness :
  fst (fst (parse_args ["disk-watchdogd"; "-v"; "-i"; "250"] healthy_world initial_globals))
  <> Returns 0
  /\ (fst (main 5 ["disk-watchdogd"; "-v"; "-i"; "250"] healthy_world) = Some 1
      \/ fst (main 5 ["disk-watchdogd"; "-v"; "-i"; "250"] healthy_world) = Some 0)
  /\ probe_calls (snd (main 5 ["disk-watchdogd"; "-v"; "-i"; "250"] healthy_world)) = 0%nat
  /\ iterations_run (snd (main 5 ["disk-watchdogd"; "-v"; "-i"; "250"] healthy_world)) = 0%nat
  /\ notifications (snd (main 5 ["disk-watchdogd"; "-v"; "-i"; "250"] healthy_world)) = []
  /\ (forall g1 t1,
         parse_options (hd "" ["disk-watchdogd"; "-v"; "-i"; "250"]) healthy_world
           (getopt_long (tl ["disk-watchdogd"; "-v"; "-i"; "250"])) initial_globals 0
         = (None, g1, t1) ->
         main 5 ["disk-watchdogd"; "-v"; "-i"; "250"] healthy_world
         = (Some 1, [EvStderr DiagFileRequired;
                     EvStdout (LogUsage (hd "" ["disk-watchdogd"; "-v"; "-i"; "250"]))])).
Proof.
  apply (no_file_option_never_monitors 5 ["disk-watchdogd"; "-v"; "-i"; "250"] healthy_world).
  reflexivity.
Defined.

(** X12.  When [getopt_long] answers with a character [parse_args] has no
    case for (the [?] of an option it rejects), after options that were
    processed without a return, the program prints the usage text and
    the process exits with status 1; nothing else is written. *)
Theorem unknown_option_exits_1 :
  forall (fuel : nat) (argv : list string) (w : world)
         (pre post : list getopt_ret) (opt : ascii) (optarg : string)
         (g1 : globals) (t1 : trace),
    getopt_long (tl argv) = pre ++ (opt, optarg) :: post ->
    parse_options (hd "" argv) w pre initial_globals 0 = (None, g1, t1) ->
    known_option opt = false ->
    main fuel argv w = (Some 1, [EvStdout (LogUsage (hd "" argv))]).
Proof.
  intros fuel argv w pre post opt optarg g1 t1 Hopts Hpre Hk.
  pose proof (parse_options_continue_silent _ _ _ _ _ _ _ Hpre) as ->.
  unfold known_option in Hk.
  repeat (apply orb_false_iff in Hk; destruct Hk as [Hk ?]).
  assert (Hp : parse_args argv w initial_globals
               = (Returns (-1), g1, print_usage (hd "" argv))).
  { unfold parse_args. rewrite Hopts, parse_options_app, Hpre.
    cbn [parse_options].
    repeat match goal with E : Ascii.eqb opt _ = false |- _ => rewrite E; clear E end.
    reflexivity. }
  rewrite main_parse_error; rewrite Hp; reflexivity.
Qed.

Lemma unknown_option_exits_1_witness :
  main 3 ["disk-watchdogd"; "-f"; "/mnt/data/probe"; "--bogus"; "-v"] healthy_world
  = (Some 1, [EvStdout (LogUsage (hd "" ["disk-watchdogd"; "-f"; "/mnt/data/probe";
                                         "--bogus"; "-v"]))]).
Proof.
  apply (unknown_option_exits_1 3
           ["disk-watchdogd"; "-f"; "/mnt/data/probe"; "--bogus"; "-v"] healthy_world
           [("f"%char, "/mnt/data/probe")] [("v"%char, "")] "?"%char ""
           (set_test_file initial_globals "/mnt/data/probe") []).
  - reflexivity.
  - reflexivity.
  - reflexivity.
Defined.

(** X13.  When [strdup] cannot copy the argument of a [--file] option,
    after options that were processed without a return, the parser
    reports it and the process exits with status 1. *)
Theorem strdup_failure_exits_1 :
  forall (fuel : nat) (argv : list string) (w : world)
         (pre post : list getopt_ret) (p : string) (g1 : globals) (t1 : trace),
    getopt_long (tl argv) = pre ++ ("f"%char, p) :: post ->
    parse_options (hd "" argv) w pre initial_globals 0 = (None, g1, t1) ->
    strdup_ok w (strdup_calls pre) = false ->
    main fuel argv w = (Some 1, [EvStderr DiagStrdupFailed]).
Proof.
  intros fuel argv w pre post p g1 t1 Hopts Hpre Hs.
  pose proof (parse_options_continue_silent _ _ _ _ _ _ _ Hpre) as ->.
  assert (Hp : fst (fst (parse_args argv w initial_globals)) = Returns (-1)
               /\ snd (parse_args argv w initial_globals) = [EvStderr DiagStrdupFailed]).
  { unfold parse_args. rewrite Hopts, parse_options_app, Hpre.
    cbn [parse_options Ascii.eqb Bool.eqb Nat.add]. rewrite Hs. split; reflexivity. }
  destruct Hp as [Hp1 Hp2].
  rewrite main_parse_error; [rewrite Hp2; reflexivity | exact Hp1].
Qed.

Lemma strdup_failure_exits_1_witness :
  main 3 ["disk-watchdogd"; "-v"; "-f"; "/mnt/data/probe"] no_memory_world
  = (Some 1, [EvStderr DiagStrdupFailed]).
Proof.
  apply (strdup_failure_exits_1 3 ["disk-watchdogd"; "-v"; "-f"; "/mnt/data/probe"]
           no_memory_world [("v"%char, "")] [] "/mnt/data/probe"
           (set_verbose initial_globals) []).
  - reflexivity.
  - reflexivity.
  - reflexivity.
Defined.

(** X14.  When [--file] is given several times, the last one counts: after
    options processed to their end, [test_file] is the argument of the
    last [--file] option. *)
Theorem last_file_option_wins :
  forall (prog : string) (w : world) (pre post : list getopt_ret) (p : string)
         (g : globals) (n : nat) (g1 : globals) (t1 : trace),
    parse_options prog w (pre ++ ("f"%char, p) :: post) g n = (None, g1, t1) ->
    strdup_calls post = 0%nat ->
    test_file g1 = Some p.
Proof.
  intros prog w pre post p g n g1 t1 H Hpost.
  rewrite parse_options_app in H.
  destruct (parse_options prog w pre g n) as [[[c|] g0] t0]; [discriminate |].
  cbn [parse_options Ascii.eqb Bool.eqb] in H.
  destruct (strdup_ok w (n + strdup_calls pre)); [| discriminate].
  destruct (parse_options prog w post (set_test_file g0 p) (S (n + strdup_calls pre)))
    as [[r g2] t2] eqn:E.
  inversion H; subst.
  apply (parse_options_keeps_file _ _ _ _ _ _ _ E Hpost).
Qed.

Lemma last_file_option_wins_witness :
  test_file (set_verbose (set_test_file (set_test_file initial_globals "/a") "/b"))
  = Some "/b".
Proof.
  apply (last_file_option_wins "disk-watchdogd" healthy_world
           [("f"%char, "/a")] [("v"%char, "")] "/b" initial_globals 0
           (set_verbose (set_test_file (set_test_file initial_globals "/a") "/b")) []).
  - reflexivity.
  - reflexivity.
Defined.



Lemma watchdog_interval_half_witness :
  interval_us (parsed_globals ["disk-watchdogd"; "-i"; "250"; "-f"; "/mnt/data/probe"]
                 (supervised_world 30000001))
  = sd_watchdog_usec (supervised_world 30000001) / 2.
Proof.
  apply (watchdog_interval_half
           ["disk-watchdogd"; "-i"; "250"; "-f"; "/mnt/data/probe"]
           (supervised_world 30000001)
           (parsed_globals ["disk-watchdogd"; "-i"; "250"; "-f"; "/mnt/data/probe"]
              (supervised_world 30000001))
           []).
  - reflexivity.
  - reflexivity.
  - simpl; lia.
  - simpl; lia.
Defined.

(** ** More on the monitor loop *)

Lemma sleeps_app t1 t2 : sleeps (t1 ++ t2) = sleeps t1 ++ sleeps t2.
Proof. apply flat_map_app. Qed.

Lemma sleeps_cons e t :
  sleeps (e :: t) = match e with EvUsleep us => us :: sleeps t | _ => sleeps t end.
Proof. destruct e; reflexivity. Qed.

(** What the events of a probe are not. *)
Lemma probe_events_silent t :
  forallb is_probe_event t = true ->
  count_events is_stdout t = 0%nat
  /\ count_events is_failure_report t = 0%nat
  /\ sleeps t = [].
Proof.
  induction t as [|e t IH]; [repeat split; reflexivity |].
  cbn [forallb]. intros H. apply andb_true_iff in H as [He Ht].
  destruct (IH Ht) as (IH1 & IH2 & IH3).
  rewrite !count_events_cons, IH1, IH2.
  unfold sleeps in *. cbn [flat_map]. rewrite IH3.
  destruct e as [| | | | | | | d | | | | |]; try discriminate; try (repeat split; reflexivity).
  destruct d; try discriminate; repeat split; reflexivity.
Qed.

Lemma read_loop_events w fd a b k :
  forallb is_probe_event (snd (read_loop w fd a b k)) = true.
Proof.
  funelim (read_loop w fd a b k); try reflexivity.
  destruct (read_loop _ _ _ _ _) as [[r b0] t0]; cbn [snd forallb is_probe_event] in *.
  assumption.
Qed.

Lemma test_read_events path w :
  forallb is_probe_event (snd (test_read path w)) = true.
Proof.
  unfold test_read.
  destruct (negb (memalign_ret w =? 0)); [reflexivity |].
  cbv zeta.
  destruct (open_ret w <? 0); [reflexivity |].
  destruct (lseek_end_ret w <? 0); [reflexivity |].
  pose proof (read_loop_events w (open_ret w) (aligned_size (lseek_end_ret w)) 0 0) as H.
  destruct (read_loop _ _ _ _ _) as [[[code|] b'] tl]; cbn [snd] in *;
    [| destruct (close_ret w <? 0)]; cbn [snd];
    rewrite !forallb_app, H; reflexivity.
Qed.

(** A probe starts and ends without the buffer and the descriptor. *)
Lemma test_read_track path w :
  track no_resources (snd (test_read path w)) = Some no_resources.
Proof.
  unfold test_read.
  destruct (memalign_ret w =? 0) eqn:Em; cbn [negb].
  2:{ cbn. rewrite Em. reflexivity. }
  cbv zeta.
  destruct (open_ret w <? 0) eqn:Eo.
  { assert (Eo' : (0 <=? open_ret w) = false) by (Z_tests; apply Z.leb_gt; lia).
    cbn. rewrite Em, Eo'. reflexivity. }
  assert (Eo' : (0 <=? open_ret w) = true) by (Z_tests; apply Z.leb_le; lia).
  destruct (lseek_end_ret w <? 0).
  { cbn. rewrite Em, Eo'. reflexivity. }
  pose proof (read_loop_track w (open_ret w) (aligned_size (lseek_end_ret w)) 0 0) as Ht.
  unfold holding in Ht.
  destruct (read_loop _ _ _ _ _) as [[[code|] b'] tl]; cbn [fst snd] in *;
    [| destruct (close_ret w <? 0)];
    cbn [app fst snd track track_event buffer_live fd_open no_resources];
    rewrite ?Em, ?Eo'; cbn [track track_event buffer_live fd_open];
    rewrite ?track_app, Ht; reflexivity.
Qed.

Lemma track_leaves r t :
  forallb leaves_resources t = true -> track r t = Some r.
Proof.
  induction t as [|e t IH]; [reflexivity |].
  cbn [forallb track]. intros H. apply andb_true_iff in H as [He Ht].
  destruct e; try discriminate; cbn [track_event]; exact (IH Ht).
Qed.

Lemma output_leaves_resources t :
  forallb is_output t = true -> forallb leaves_resources t = true.
Proof.
  induction t as [|e t IH]; [reflexivity |].
  cbn [forallb]. intros H. apply andb_true_iff in H as [He Ht].
  rewrite (IH Ht). destruct e; try discriminate; reflexivity.
Qed.

(** One iteration: one probe, one sleep of the configured length, one
    heartbeat or one failure report, and nothing held at its end. *)
Lemma loop_body_run path g w st :
  let res := fst (test_read path (probe w (round st))) in
  let tb := snd (loop_body path g w st) in
  fst (fst (loop_body path g w st)) = res
  /\ round (snd (fst (loop_body path g w st))) = S (round st)
  /\ running (snd (fst (loop_body path g w st))) = running st
  /\ iterations_run tb = 1%nat
  /\ probe_calls tb = 1%nat
  /\ track no_resources tb = Some no_resources
  /\ count_events is_failure_report tb = (if res =? 0 then 0%nat else 1%nat)
  /\ sleeps tb = [to_useconds (interval_us g)]
  /\ (verbose_mode g = false -> count_events is_stdout tb = 0%nat).
Proof.
  cbv zeta.
  destruct (loop_body_spec path g w st) as (tp & Htp & -> & _).
  pose proof (test_read_quiet path (probe w (round st))) as (_ & Hit & Hpc).
  pose proof (test_read_track path (probe w (round st))) as Htr.
  pose proof (test_read_events path (probe w (round st))) as Hev.
  apply probe_events_silent in Hev as (Hso & Hfr & Hsl).
  rewrite Htp in Hit, Hpc, Htr, Hso, Hfr, Hsl. cbn [fst snd] in *.
  unfold iterations_run, probe_calls, LOG_VERBOSE in *.
  split; [reflexivity |]. split; [reflexivity |]. split; [reflexivity |].
  destruct (verbose_mode g);
    destruct (fst (test_read path (probe w (round st))) =? 0);
    destruct (debug_mode g); cbn [negb app];
    repeat first [rewrite sleeps_cons | rewrite sleeps_app];
    rewrite ?track_app, ?Htr; count_trace;
    rewrite ?Hit, ?Hpc, ?Hso, ?Hfr, ?Hsl;
    cbn [track track_event];
    rewrite ?track_app, ?Htr;
    (repeat split; try reflexivity; try discriminate).
Qed.

Lemma deliver_round w st : round (deliver w st) = round st.
Proof. unfold deliver. destruct (signalled w (round st)); reflexivity. Qed.

(** The loop, one test of [running] unfolded. *)
Lemma monitor_loop_step fuel path g w st :
  monitor_loop (S fuel) path g w st =
  if running (deliver w st) then
    (fst (monitor_loop fuel path g w (snd (fst (loop_body path g w (deliver w st))))),
     snd (loop_body path g w (deliver w st))
     ++ snd (monitor_loop fuel path g w (snd (fst (loop_body path g w (deliver w st))))))
  else (Stopping, []).
Proof.
  cbn [monitor_loop]. cbv zeta.
  destruct (running (deliver w st)); [| reflexivity].
  destruct (loop_body path g w (deliver w st)) as [[res st2] t]. cbn [fst snd].
  destruct (monitor_loop fuel path g w st2) as [ph t']. reflexivity.
Qed.

(** Any number of iterations: as many probes as sleeps, every sleep of
    the configured length, one heartbeat for each successful probe
    outside debug mode, one failure report for each failed probe, and
    nothing held between probes. *)
Lemma monitor_loop_run path g w :
  forall fuel st,
    let t := snd (monitor_loop fuel path g w st) in
    let n := iterations_run t in
    (n <= fuel)%nat
    /\ probe_calls t = n
    /\ track no_resources t = Some no_resources
    /\ notifications t
       = (if debug_mode g then [] else repeat "WATCHDOG=1" (successes path w (round st) n))
    /\ (count_events is_failure_report t + successes path w (round st) n)%nat = n
    /\ sleeps t = repeat (to_useconds (interval_us g)) n
    /\ (verbose_mode g = false -> count_events is_stdout t = 0%nat).
Proof.
  induction fuel as [|fuel IH]; intros st; cbv zeta.
  - cbn. destruct (debug_mode g); repeat split; auto.
  - rewrite monitor_loop_step.
    destruct (running (deliver w st)).
    2:{ cbn. destruct (debug_mode g); repeat split; auto; lia. }
    pose proof (loop_body_run path g w (deliver w st))
      as (Hres & Hround & _ & Hit & Hpc & Htr & Hfr & Hsl & Hso).
    pose proof (loop_body_notifications path g w (deliver w st)) as Hno.
    rewrite deliver_round in *.
    specialize (IH (snd (fst (loop_body path g w (deliver w st))))).
    cbv zeta in IH. rewrite Hround in IH.
    destruct IH as (IH1 & IH2 & IH3 & IH4 & IH5 & IH6 & IH7).
    cbn [snd].
    unfold iterations_run, probe_calls in *.
    rewrite !count_events_app, track_app, notifications_app, sleeps_app.
    rewrite Hit, Hpc, Htr, Hfr, Hsl, Hno, Hres, IH2, IH3, IH4, IH6.
    cbn [Nat.add successes repeat app]. cbv zeta.
    destruct (fst (test_read path (probe w (round st))) =? 0);
      destruct (debug_mode g); cbn [negb andb app Nat.add repeat];
      (repeat split; try reflexivity; try lia);
      intros Hv; rewrite (Hso Hv), (IH7 Hv); reflexivity.
Qed.

(** The loop ends at the first test of [running] that follows a
    signal. *)
Lemma monitor_loop_until_signal path g w :
  forall k st fuel,
    running st = true ->
    (forall j, (round st <= j < round st + k)%nat -> signalled w j = false) ->
    signalled w (round st + k) = true ->
    (k < fuel)%nat ->
    fst (monitor_loop fuel path g w st) = Stopping
    /\ iterations_run (snd (monitor_loop fuel path g w st)) = k.
Proof.
  induction k as [|k IH]; intros st fuel Hrun Hquiet Hsig Hfuel;
    (destruct fuel as [|fuel]; [lia |]); rewrite monitor_loop_step.
  - rewrite Nat.add_0_r in Hsig. unfold deliver. rewrite Hsig. cbn. auto.
  - assert (Hd : deliver w st = st)
      by (unfold deliver; rewrite Hquiet by lia; reflexivity).
    rewrite Hd, Hrun.
    pose proof (loop_body_run path g w st) as (_ & Hround & Hrun' & Hit & _).
    destruct (IH (snd (fst (loop_body path g w st))) fuel) as [IH1 IH2].
    + rewrite Hrun'. exact Hrun.
    + rewrite Hround. intros j Hj. apply Hquiet. lia.
    + rewrite Hround. replace (S (round st) + k)%nat with (round st + S k)%nat by lia.
      exact Hsig.
    + lia.
    + cbn [fst snd]. split; [exact IH1 |].
      unfold iterations_run in *. rewrite count_events_app, Hit, IH2. reflexivity.
Qed.

(** Without a signal the loop goes on, whatever the probes return. *)
Lemma monitor_loop_no_signal path g w :
  forall fuel st,
    running st = true ->
    (forall j, (round st <= j < round st + fuel)%nat -> signalled w j = false) ->
    (exists st', fst (monitor_loop fuel path g w st) = Running st' /\ running st' = true)
    /\ iterations_run (snd (monitor_loop fuel path g w st)) = fuel.
Proof.
  induction fuel as [|fuel IH]; intros st Hrun Hquiet.
  - cbn. split; [exists st; auto | reflexivity].
  - rewrite monitor_loop_step.
    assert (Hd : deliver w st = st)
      by (unfold deliver; rewrite Hquiet by lia; reflexivity).
    rewrite Hd, Hrun.
    pose proof (loop_body_run path g w st) as (_ & Hround & Hrun' & Hit & _).
    destruct (IH (snd (fst (loop_body path g w st)))) as [IH1 IH2].
    + rewrite Hrun'. exact Hrun.
    + rewrite Hround. intros j Hj. apply Hquiet. lia.
    + cbn [fst snd]. split; [exact IH1 |].
      unfold iterations_run in *. rewrite count_events_app, Hit, IH2. reflexivity.
Qed.

Lemma check_test_file_pass path w :
  fst (check_test_file path w) = 0 -> check_test_file path w = (0, []).
Proof.
  unfold check_test_file. cbv zeta.
  destruct (stat_ret (stat w path) <? 0); [discriminate |].
  destruct (negb (st_is_reg (stat w path))); [discriminate |].
  destruct (st_size (stat w path) =? 0); [discriminate | reflexivity].
Qed.

(** [main] once the arguments and the target file are accepted. *)
Lemma main_monitoring fuel argv w g t path :
  parse_args argv w initial_globals = (Returns 0, g, t) ->
  test_file g = Some path ->
  fst (check_test_file path w) = 0 ->
  main fuel argv w =
  (match fst (monitor_loop fuel path g w initial_loop_state) with
   | Running _ => None
   | Stopping => Some 0
   end,
   t ++ [EvInstallHandlers]
   ++ (if negb (debug_mode g) then [EvNotify "READY=1"] else [])
   ++ LOG_VERBOSE g LogStarted
   ++ LOG_VERBOSE g (LogMonitoring path)
   ++ snd (monitor_loop fuel path g w initial_loop_state)
   ++ match fst (monitor_loop fuel path g w initial_loop_state) with
      | Running _ => []
      | Stopping => LOG_VERBOSE g LogShuttingDown ++ [EvFreeTestFile]
      end).
Proof.
  intros Hp Hf Hc. unfold main.
  rewrite Hp, Hf, (check_test_file_pass _ _ Hc). cbn [Z.ltb Z.compare].
  destruct (monitor_loop fuel path g w initial_loop_state) as [[st'|] tl];
    cbn [fst snd]; rewrite ?app_nil_r, <- ?app_assoc; reflexivity.
Qed.

Lemma watchdog_adjust_stdout w g :
  forallb is_stdout (snd (watchdog_adjust w g)) = true
  /\ (verbose_mode g = false -> snd (watchdog_adjust w g) = []).
Proof.
  unfold watchdog_adjust, LOG_VERBOSE. cbv zeta.
  cbn [verbose_mode set_interval_us].
  destruct (negb (debug_mode g)); [| auto].
  destruct (sd_watchdog_enabled w >? 0); [| auto].
  cbn [snd].
  destruct (verbose_mode g);
    destruct (negb (interval_us g =? DEFAULT_INTERVAL));
    split; try reflexivity; intros; try discriminate; reflexivity.
Qed.

(** When [parse_args] returns 0 it has written nothing but verbose
    lines. *)
Lemma parse_args_ok_trace argv w g t :
  parse_args argv w initial_globals = (Returns 0, g, t) ->
  forallb is_stdout t = true /\ (verbose_mode g = false -> t = []).
Proof.
  intros Hp.
  destruct (parse_args_ok _ _ _ _ _ _ Hp)
    as [(g1 & t1 & path & Hopts & Hf & _ & Hg) | [H | H]]; try discriminate.
  pose proof (parse_options_continue_silent _ _ _ _ _ _ _ Hopts) as ->.
  pose proof (watchdog_adjust_keeps w g1) as (_ & _ & Hv).
  pose proof (watchdog_adjust_stdout w g1) as (Hs1 & Hs2).
  unfold parse_args in Hp. rewrite Hopts, Hf in Hp.
  destruct (watchdog_adjust w g1) as [g2 t2]. cbn [fst snd] in *.
  inversion Hp; subst g t. clear Hp.
  unfold LOG_VERBOSE. rewrite Hv.
  destruct (verbose_mode g1).
  - split; [| discriminate].
    cbn [app]. rewrite forallb_app, Hs1.
    destruct (debug_mode g2); reflexivity.
  - split; [| intros _]; rewrite (Hs2 eq_refl);
      destruct (debug_mode g2); reflexivity.
Qed.

Lemma stdout_only_counts t :
  forallb is_stdout t = true ->
  forallb is_output t = true
  /\ count_events is_failure_report t = 0%nat
  /\ sleeps t = [].
Proof.
  induction t as [|e t IH]; [repeat split; reflexivity |].
  cbn [forallb]. intros H. apply andb_true_iff in H as [He Ht].
  destruct (IH Ht) as (IH1 & IH2 & IH3).
  rewrite count_events_cons, sleeps_cons, IH1, IH2, IH3.
  destruct e; try discriminate. repeat split; reflexivity.
Qed.

Lemma track_run_app r t1 t2 :
  track_run r (t1 ++ t2) =
  match track_run r t1 with Some r' => track_run r' t2 | None => None end.
Proof.
  revert r; induction t1 as [|e t1 IH]; intros r; simpl; [reflexivity |].
  destruct (track_run_event r e); [apply IH | reflexivity].
Qed.

(** On the events of a probe the two trackers agree. *)
Lemma track_run_probe t :
  forallb is_probe_event t = true -> forall r, track_run r t = track r t.
Proof.
  induction t as [|e t IH]; [reflexivity |].
  cbn [forallb]. intros H r. apply andb_true_iff in H as [He Ht].
  cbn [track_run track]. unfold track_run_event. rewrite He.
  destruct (track_event r e); [apply IH; exact Ht | reflexivity].
Qed.

(** Events that leave the resources alone pass with nothing held. *)
Lemma track_run_idle t :
  forallb leaves_resources t = true -> track_run no_resources t = Some no_resources.
Proof.
  induction t as [|e t IH]; [reflexivity |].
  cbn [forallb]. intros H. apply andb_true_iff in H as [He Ht].
  cbn [track_run]. unfold track_run_event.
  destruct e as [| | | | | | | d | | | | |]; try discriminate;
    try (cbn; exact (IH Ht)).
  destruct d; cbn; exact (IH Ht).
Qed.

Lemma LOG_VERBOSE_leaves g l : forallb leaves_resources (LOG_VERBOSE g l) = true.
Proof. unfold LOG_VERBOSE. destruct (verbose_mode g); reflexivity. Qed.

(** A piece of trace that starts and ends with nothing held can be
    passed over. *)
Lemma track_run_skip t rest :
  track_run no_resources t = Some no_resources ->
  track_run no_resources (t ++ rest) = track_run no_resources rest.
Proof. intros H. rewrite track_run_app, H. reflexivity. Qed.

Lemma loop_body_track_run path g w st :
  track_run no_resources (snd (loop_body path g w st)) = Some no_resources.
Proof.
  destruct (loop_body_spec path g w st) as (tp & Htp & -> & _).
  pose proof (test_read_track path (probe w (round st))) as Htr.
  pose proof (test_read_events path (probe w (round st))) as Hev.
  rewrite Htp in Htr, Hev. cbn [snd] in *.
  rewrite track_run_skip by (apply track_run_idle, LOG_VERBOSE_leaves).
  rewrite track_run_skip by (rewrite (track_run_probe _ Hev); exact Htr).
  apply track_run_idle.
  rewrite forallb_app.
  destruct (negb (fst (test_read path (probe w (round st))) =? 0)); [reflexivity |].
  rewrite forallb_app, LOG_VERBOSE_leaves.
  destruct (negb (debug_mode g)); reflexivity.
Qed.

Lemma monitor_loop_track_run path g w :
  forall fuel st,
    track_run no_resources (snd (monitor_loop fuel path g w st)) = Some no_resources.
Proof.
  induction fuel as [|fuel IH]; intros st; [reflexivity |].
  rewrite monitor_loop_step.
  destruct (running (deliver w st)); [| reflexivity].
  cbn [snd]. rewrite track_run_skip by apply loop_body_track_run. apply IH.
Qed.

(** The tracker of a run is the stricter one: what it accepts, the
    tracker of a probe accepts with the same result. *)
Lemma track_run_track t :
  forall r r', track_run r t = Some r' -> track r t = Some r'.
Proof.
  induction t as [|e t IH]; intros r r' H; [exact H |].
  cbn [track_run track] in *. unfold track_run_event in H.
  destruct (is_probe_event e) eqn:Ep.
  - destruct (track_event r e); [apply IH; exact H | discriminate].
  - destruct (buffer_live r || fd_open r) eqn:Eh; [discriminate |].
    assert (He : track_event r e = Some r)
      by (destruct e as [| | | | | | | d | | | | |]; try discriminate; try reflexivity;
          destruct d; try discriminate; reflexivity).
    rewrite He. apply IH. exact H.
Qed.

(** A heartbeat sent between the open and the close is faulted by the
    tracker of a run, and not by the tracker of a probe. *)
Example heartbeat_while_holding_faulted :
  track_run no_resources
    [EvMemalign 0; EvMemset; EvOpen "/mnt/data/probe" 3; EvNotify "WATCHDOG=1";
     EvUsleep 10000; EvClose 3 0; EvFree] = None
  /\ track no_resources
       [EvMemalign 0; EvMemset; EvOpen "/mnt/data/probe" 3; EvNotify "WATCHDOG=1";
        EvUsleep 10000; EvClose 3 0; EvFree] = Some no_resources.
Proof. split; reflexivity. Qed.

(** X17.  A whole run, whatever the arguments, the system's answers and
    the length of the observation, passes the tracker of a run: every
    probe starts with no buffer and no descriptor held, uses only what
    it holds, and has given both back before the next event outside the
    probe, so that no heartbeat, no ready notification, no sleep, no
    line of the loop and no later probe happens while the buffer or the
    descriptor is held, and nothing is held at the end. *)
Theorem run_releases_everything :
  forall (fuel : nat) (argv : list string) (w : world),
    track_run no_resources (snd (main fuel argv w)) = Some no_resources.
Proof.
  intros fuel argv w. unfold main.
  pose proof (parse_args_output argv w initial_globals) as Ho.
  destruct (parse_args argv w initial_globals) as [[r g] t]. cbn [snd] in Ho.
  apply output_leaves_resources, track_run_idle in Ho.
  destruct r as [v|status]; [| exact Ho].
  destruct (v <? 0); [exact Ho |].
  destruct (test_file g) as [path|]; [| exact Ho].
  pose proof (check_test_file_output path w) as Hc.
  apply output_leaves_resources, track_run_idle in Hc.
  destruct (check_test_file path w) as [c tc]. cbn [snd] in Hc.
  destruct (c <? 0).
  - cbn [snd]. rewrite <- !app_assoc.
    rewrite track_run_skip by exact Ho.
    rewrite (track_run_skip [EvInstallHandlers]) by reflexivity.
    rewrite track_run_skip by exact Hc. reflexivity.
  - pose proof (monitor_loop_track_run path g w fuel initial_loop_state) as Hl.
    destruct (monitor_loop fuel path g w initial_loop_state) as [ph tl]. cbn [snd] in Hl.
    assert (Hready : track_run no_resources
                       (if negb (debug_mode g) then [EvNotify "READY=1"] else [])
                     = Some no_resources)
      by (destruct (negb (debug_mode g)); reflexivity).
    destruct ph; cbn [snd]; rewrite <- !app_assoc;
      rewrite track_run_skip by exact Ho;
      rewrite (track_run_skip [EvInstallHandlers]) by reflexivity;
      rewrite track_run_skip by exact Hc;
      rewrite track_run_skip by exact Hready;
      rewrite track_run_skip by (apply track_run_idle, LOG_VERBOSE_leaves);
      rewrite track_run_skip by (apply track_run_idle, LOG_VERBOSE_leaves).
    + exact Hl.
    + rewrite track_run_skip by exact Hl.
      rewrite track_run_skip by (apply track_run_idle, LOG_VERBOSE_leaves).
      reflexivity.
Qed.

(** X18.  In a run outside debug mode whose arguments and target file are
    accepted, the supervisor receives [READY=1] once, before anything
    else, and then one [WATCHDOG=1] for each successful probe and none
    for a failed one; each failed probe is reported once on the error
    stream; every iteration makes one probe and sleeps for the
    configured interval. *)
Theorem heartbeats_count_successes :
  forall (fuel : nat) (argv : list string) (w : world) (g : globals) (t : trace)
         (path : string),
    parse_args argv w initial_globals = (Returns 0, g, t) ->
    test_file g = Some path ->
    fst (check_test_file path w) = 0 ->
    debug_mode g = false ->
    let n := iterations_run (snd (main fuel argv w)) in
    (n <= fuel)%nat
    /\ notifications (snd (main fuel argv w))
       = "READY=1" :: repeat "WATCHDOG=1" (successes path w 0 n)
    /\ (count_events is_failure_report (snd (main fuel argv w))
        + successes path w 0 n)%nat = n
    /\ probe_calls (snd (main fuel argv w)) = n
    /\ sleeps (snd (main fuel argv w)) = repeat (to_useconds (interval_us g)) n.
Proof.
  intros fuel argv w g t path Hp Hf Hc Hd. cbv zeta.
  rewrite (main_monitoring fuel argv w g t path Hp Hf Hc). cbn [snd].
  pose proof (parse_args_ok_trace argv w g t Hp) as (Hst & _).
  apply stdout_only_counts in Hst as (Hout & Hfr & Hsl).
  apply output_only_silent in Hout as (Hno & Hpc & Hit & _).
  pose proof (monitor_loop_run path g w fuel initial_loop_state)
    as (L1 & L2 & _ & L4 & L5 & L6 & _).
  cbv zeta in *. cbn [initial_loop_state round] in *. rewrite Hd in *. cbn [negb].
  set (tl := snd (monitor_loop fuel path g w initial_loop_state)) in *.
  unfold iterations_run, probe_calls, LOG_VERBOSE in *.
  destruct (fst (monitor_loop fuel path g w initial_loop_state));
    destruct (verbose_mode g);
    repeat first [rewrite sleeps_cons | rewrite sleeps_app];
    rewrite ?notifications_app; count_trace;
    rewrite ?Hno, ?Hpc, ?Hit, ?Hfr, ?Hsl, ?L2, ?L4, ?L6;
    cbn [is_usleep is_memalign is_failure_report notifications flat_map app Nat.add];
    rewrite ?Nat.add_0_r, ?app_nil_r;
    (repeat split; try reflexivity; try lia).
Qed.

Lemma heartbeats_count_successes_witness :
  let run := main 5 ["disk-watchdogd"; "-f"; "/mnt/data/probe"] flaky_world in
  let n := iterations_run (snd run) in
  (n <= 5)%nat
  /\ notifications (snd run)
     = "READY=1" :: repeat "WATCHDOG=1" (successes "/mnt/data/probe" flaky_world 0 n)
  /\ (count_events is_failure_report (snd run)
      + successes "/mnt/data/probe" flaky_world 0 n)%nat = n
  /\ probe_calls (snd run) = n
  /\ sleeps (snd run)
     = repeat (to_useconds
                 (interval_us (parsed_globals ["disk-watchdogd"; "-f"; "/mnt/data/probe"]
                                 flaky_world))) n.
Proof.
  apply (heartbeats_count_successes 5 ["disk-watchdogd"; "-f"; "/mnt/data/probe"]
           flaky_world
           (parsed_globals ["disk-watchdogd"; "-f"; "/mnt/data/probe"] flaky_world)
           [] "/mnt/data/probe").
  - reflexivity.
  - reflexivity.
  - reflexivity.
  - reflexivity.
Defined.

(** X19.  In a run whose arguments and target file are accepted, when the
    first signal is handled before the test of [running] number [k],
    the loop makes exactly [k] iterations and the process then releases
    the path and exits with status 0. *)
Theorem signal_ends_run_with_status_0 :
  forall (fuel : nat) (argv : list string) (w : world) (g : globals) (t : trace)
         (path : string) (k : nat),
    parse_args argv w initial_globals = (Returns 0, g, t) ->
    test_file g = Some path ->
    fst (check_test_file path w) = 0 ->
    (forall j, (j < k)%nat -> signalled w j = false) ->
    signalled w k = true ->
    (k < fuel)%nat ->
    fst (main fuel argv w) = Some 0
    /\ iterations_run (snd (main fuel argv w)) = k
    /\ probe_calls (snd (main fuel argv w)) = k
    /\ exists t', snd (main fuel argv w) = t' ++ [EvFreeTestFile].
Proof.
  intros fuel argv w g t path k Hp Hf Hc Hquiet Hsig Hfuel.
  rewrite (main_monitoring fuel argv w g t path Hp Hf Hc).
  destruct (monitor_loop_until_signal path g w k initial_loop_state fuel) as [Hph Hn];
    try assumption; try reflexivity.
  { cbn [initial_loop_state round]. intros j Hj. apply Hquiet. lia. }
  pose proof (monitor_loop_run path g w fuel initial_loop_state) as (_ & L2 & _).
  cbv zeta in L2.
  pose proof (parse_args_ok_trace argv w g t Hp) as (Hst & _).
  apply stdout_only_counts in Hst as (Hout & _).
  apply output_only_silent in Hout as (_ & Hpc & Hit & _).
  rewrite Hph. cbn [fst snd].
  split; [reflexivity |].
  unfold iterations_run, probe_calls, LOG_VERBOSE in *.
  split; [| split].
  - destruct (verbose_mode g); destruct (negb (debug_mode g)); count_trace;
      rewrite Hit, Hn; cbn [is_usleep]; lia.
  - destruct (verbose_mode g); destruct (negb (debug_mode g)); count_trace;
      rewrite Hpc, L2, Hn; cbn [is_memalign]; lia.
  - exists (t ++ [EvInstallHandlers]
            ++ (if negb (debug_mode g) then [EvNotify "READY=1"] else [])
            ++ (if verbose_mode g then [EvStdout LogStarted] else [])
            ++ (if verbose_mode g then [EvStdout (LogMonitoring path)] else [])
            ++ snd (monitor_loop fuel path g w initial_loop_state)
            ++ (if verbose_mode g then [EvStdout LogShuttingDown] else [])).
    rewrite <- !app_assoc. reflexivity.
Qed.

Lemma signal_ends_run_with_status_0_witness :
  fst (main 9 ["disk-watchdogd"; "-f"; "/mnt/data/probe"] healthy_world) = Some 0
  /\ iterations_run (snd (main 9 ["disk-watchdogd"; "-f"; "/mnt/data/probe"] healthy_world))
     = 2%nat
  /\ probe_calls (snd (main 9 ["disk-watchdogd"; "-f"; "/mnt/data/probe"] healthy_world))
     = 2%nat
  /\ exists t', snd (main 9 ["disk-watchdogd"; "-f"; "/mnt/data/probe"] healthy_world)
                = t' ++ [EvFreeTestFile].
Proof.
  apply (signal_ends_run_with_status_0 9 ["disk-watchdogd"; "-f"; "/mnt/data/probe"]
           healthy_world
           (parsed_globals ["disk-watchdogd"; "-f"; "/mnt/data/probe"] healthy_world)
           [] "/mnt/data/probe" 2).
  - reflexivity.
  - reflexivity.
  - reflexivity.
  - intros j Hj. destruct j as [|[|j]]; [reflexivity | reflexivity | lia].
  - reflexivity.
  - lia.
Defined.

(** X20.  In a run whose arguments and target file are accepted, as long
    as no signal is handled the process does not end: after any number
    of tests of [running] the loop has made that many iterations and is
    still running, whatever the probes returned.  Failures of the probe
    never stop the daemon. *)
Theorem no_signal_keeps_running :
  forall (fuel : nat) (argv : list string) (w : world) (g : globals) (t : trace)
         (path : string),
    parse_args argv w initial_globals = (Returns 0, g, t) ->
    test_file g = Some path ->
    fst (check_test_file path w) = 0 ->
    (forall j, (j < fuel)%nat -> signalled w j = false) ->
    fst (main fuel argv w) = None
    /\ iterations_run (snd (main fuel argv w)) = fuel
    /\ probe_calls (snd (main fuel argv w)) = fuel.
Proof.
  intros fuel argv w g t path Hp Hf Hc Hquiet.
  rewrite (main_monitoring fuel argv w g t path Hp Hf Hc).
  destruct (monitor_loop_no_signal path g w fuel initial_loop_state)
    as [(st' & Hph & _) Hn]; try reflexivity.
  { cbn [initial_loop_state round]. intros j Hj. apply Hquiet. lia. }
  pose proof (monitor_loop_run path g w fuel initial_loop_state) as (_ & L2 & _).
  cbv zeta in L2.
  pose proof (parse_args_ok_trace argv w g t Hp) as (Hst & _).
  apply stdout_only_counts in Hst as (Hout & _).
  apply output_only_silent in Hout as (_ & Hpc & Hit & _).
  rewrite Hph. cbn [fst snd].
  split; [reflexivity |].
  unfold iterations_run, probe_calls, LOG_VERBOSE in *.
  split; destruct (verbose_mode g); destruct (negb (debug_mode g)); count_trace;
    rewrite ?Hit, ?Hpc, ?L2, ?Hn; cbn [is_usleep is_memalign]; lia.
Qed.

Lemma no_signal_keeps_running_witness :
  fst (main 6 ["disk-watchdogd"; "-f"; "/mnt/data/probe"] dead_disk_world) = None
  /\ iterations_run (snd (main 6 ["disk-watchdogd"; "-f"; "/mnt/data/probe"] dead_disk_world))
     = 6%nat
  /\ probe_calls (snd (main 6 ["disk-watchdogd"; "-f"; "/mnt/data/probe"] dead_disk_world))
     = 6%nat.
Proof.
  apply (no_signal_keeps_running 6 ["disk-watchdogd"; "-f"; "/mnt/data/probe"]
           dead_disk_world
           (parsed_globals ["disk-watchdogd"; "-f"; "/mnt/data/probe"] dead_disk_world)
           [] "/mnt/data/probe").
  - reflexivity.
  - reflexivity.
  - reflexivity.
  - intros j Hj. reflexivity.
Defined.

(** X21.  Without [--verbose] and [--debug] a run whose arguments are
    accepted writes nothing on standard output, however long it lasts
    and whatever the probes return. *)
Theorem quiet_without_verbose :
  forall (fuel : nat) (argv : list string) (w : world) (g : globals) (t : trace),
    parse_args argv w initial_globals = (Returns 0, g, t) ->
    verbose_mode g = false ->
    count_events is_stdout (snd (main fuel argv w)) = 0%nat.
Proof.
  intros fuel argv w g t Hp Hv.
  pose proof (parse_args_ok_trace argv w g t Hp) as (_ & Ht).
  specialize (Ht Hv). subst t.
  destruct (parse_args_sets_file _ _ _ _ _ Hp) as (path & Hf).
  unfold main. rewrite Hp, Hf. cbn [Z.ltb Z.compare app].
  unfold check_test_file. cbv zeta.
  pose proof (monitor_loop_run path g w fuel initial_loop_state) as (_ & _ & _ & _ & _ & _ & L7).
  cbv zeta in L7. specialize (L7 Hv).
  destruct (monitor_loop fuel path g w initial_loop_state) as [ph tl]. cbn [snd] in L7.
  unfold LOG_VERBOSE. rewrite Hv.
  destruct (stat_ret (stat w path) <? 0); [reflexivity |].
  destruct (negb (st_is_reg (stat w path))); [reflexivity |].
  destruct (st_size (stat w path) =? 0); [reflexivity |].
  cbn [Z.ltb Z.compare app].
  destruct ph; destruct (negb (debug_mode g)); cbn [snd app]; count_trace;
    rewrite L7; reflexivity.
Qed.

Lemma quiet_without_verbose_witness :
  count_events is_stdout
    (snd (main 4 ["disk-watchdogd"; "-f"; "/mnt/data/probe"; "-i"; "250"] flaky_world))
  = 0%nat.
Proof.
  apply (quiet_without_verbose 4
           ["disk-watchdogd"; "-f"; "/mnt/data/probe"; "-i"; "250"] flaky_world
           (parsed_globals ["disk-watchdogd"; "-f"; "/mnt/data/probe"; "-i"; "250"]
              flaky_world) []).
  - reflexivity.
  - reflexivity.
Defined.

Lemma test_read_codes_reachable_witness :
  exists w, fst (test_read "/mnt/data/probe" w) = 6.
Proof.
  apply (test_read_codes_reachable "/mnt/data/probe" 6). lia.
Defined.
